(** * The batch conversion controller of the converter module

    A shallow embedding of [src/converter/internal/convertercontroller.cpp]
    (class [ConverterController]) and the properties of its batch-job parser,
    its single-job dispatcher and its batch runner.

    The controller talks to collaborators that live outside this file of the
    code base: the writer registry, the notation project (load, save), the
    extension provider, the file layer and the progress sink.  Each of them is
    a field of the record [Env]; the answer of a collaborator that has state
    may depend on everything that happened before, so it receives the
    current [World], and each call to it is recorded, with its outcome, in
    the world's list of events. *)

From Stdlib Require Import String Ascii List ZArith Lia Bool Arith DecimalString.
Import ListNotations.

Local Open Scope string_scope.
Local Open Scope list_scope.

(** String concatenation, [operator+] on [QString], [muse::String] and
    [path_t] in the source. *)
Infix "+++" := String.append (right associativity, at level 60).

(** ** Strings *)

Module Str.

(** [QString::contains(QChar)]. *)
Fixpoint contains (c : ascii) (s : string) : bool :=
  match s with
  | EmptyString => false
  | String a s' => if Ascii.eqb a c then true else contains c s'
  end.

(** [QString::replace(before, after)] where [before] is the one-character
    string the controller passes: every occurrence is replaced, the text put
    in is not scanned again. *)
Fixpoint replace (before : ascii) (after : string) (s : string) : string :=
  match s with
  | EmptyString => EmptyString
  | String a s' =>
      if Ascii.eqb a before then after +++ replace before after s'
      else String a (replace before after s')
  end.


(** No place marker can start in [s]: it holds no percent sign. *)
Definition plain (s : string) : bool := negb (contains "%" s).

(** Whether the place marker [%d] occurs in [s]. *)
Fixpoint has_marker (d : ascii) (s : string) : bool :=
  match s with
  | EmptyString => false
  | String a s' =>
      match s' with
      | EmptyString => false
      | String b _ =>
          if Ascii.eqb a "%" && Ascii.eqb b d then true else has_marker d s'
      end
  end.

(** Every occurrence of the place marker [%d] in [s] becomes [v]. *)
Fixpoint fill_marker (d : ascii) (v : string) (s : string) : string :=
  match s with
  | EmptyString => EmptyString
  | String a s' =>
      match s' with
      | EmptyString => String a EmptyString
      | String b s'' =>
          if Ascii.eqb a "%" && Ascii.eqb b d then v +++ fill_marker d v s''
          else String a (fill_marker d v s')
      end
  end.

Definition digits : list ascii :=
  ["1"; "2"; "3"; "4"; "5"; "6"; "7"; "8"; "9"]%char.

(** Modelled from the spec: [muse::String::arg] is declared in the framework's
    string header, which is not part of the sources at hand.  The spec has the
    runner append "a formatted (error, input, output) triple" and the page
    writer "insert a 1-based page index into the output template": [arg]
    fills the lowest-numbered place marker of the pattern, at each of its
    occurrences, as [QString::arg] does.  Markers are [%1] to [%9]. *)
Definition arg (s v : string) : string :=
  match find (fun d => has_marker d s) digits with
  | Some d => fill_marker d v s
  | None => s
  end.

(** The line feed, [u"\n"] in the source. *)
Definition newline : string := String (ascii_of_nat 10) EmptyString.

(** Modelled from the spec: the conversion of a number to text that
    [String::arg] applies to a numeric argument is part of the framework's
    string class; the spec has a "1-based page index" in the file name, which
    is the number in base ten. *)
Definition number (n : nat) : string :=
  NilZero.string_of_uint (Nat.to_uint n).

End Str.

(** ** JSON values, as [QJsonValue] presents a parsed document *)

#[warnings="-register-all"]
Inductive QJsonValue : Type :=
| JNull
| JBool (b : bool)
| JDouble (d : Z)   (* the controller never looks at a number's payload *)
| JString (s : string)
| JArray (a : list QJsonValue)
| JObject (o : list (string * QJsonValue))
| JUndefined.

Definition QJsonArray := list QJsonValue.

(** A [QJsonObject] holds a key at most once; the lookup takes the first
    binding it meets. *)
Definition QJsonObject := list (string * QJsonValue).

Module Json.

Fixpoint value (o : QJsonObject) (key : string) : QJsonValue :=
  match o with
  | [] => JUndefined
  | (k, v) :: o' => if String.eqb k key then v else value o' key
  end.

(** [QJsonValue::operator[](key)]: undefined unless the value is an object
    that has the key. *)
Definition get (v : QJsonValue) (key : string) : QJsonValue :=
  match v with
  | JObject o => value o key
  | _ => JUndefined
  end.

Definition isString (v : QJsonValue) : bool :=
  match v with JString _ => true | _ => false end.

Definition isArray (v : QJsonValue) : bool :=
  match v with JArray _ => true | _ => false end.

(** [toString()], [toArray()] and [toObject()] answer the empty string, array
    or object when the value has another type. *)
Definition toString (v : QJsonValue) : string :=
  match v with JString s => s | _ => "" end.

Definition toArray (v : QJsonValue) : QJsonArray :=
  match v with JArray a => a | _ => [] end.

Definition toObject (v : QJsonValue) : QJsonObject :=
  match v with JObject o => o | _ => [] end.

Definition isEmpty (o : QJsonObject) : bool :=
  match o with [] => true | _ => false end.

(** [QJsonArray::operator[](i)]. *)
Definition at_ (a : QJsonArray) (i : nat) : QJsonValue := nth i a JUndefined.

End Json.

(** ** Results *)

(** The result codes the controller produces or tests, and [Other] for every
    further code a collaborator may answer with. *)
Inductive Code : Type :=
| Ok
| NotSupported
| UnknownError
| BatchJobFileFailedOpen
| BatchJobFileFailedParse
| ConvertTypeUnknown
| InFileFailedLoad
| OutFileFailedOpen
| OutFileFailedWrite
| ConvertFailed
| Other (n : Z).

Record Ret : Type := mkRet { code : Code; text : string }.

(** [Ret::operator bool]: success is the code [Ok]. *)
Definition success (r : Ret) : bool :=
  match code r with Ok => true | _ => false end.

Record RetVal (A : Type) : Type := mkRetVal { ret : Ret; val : A }.
Arguments mkRetVal {A} _ _.
Arguments ret {A} _.
Arguments val {A} _.

(** ** The data of a job *)

Definition path_t := string.

(** The parsed transposition request; the controller hands it on and never
    looks inside. *)
Record TransposeOptions : Type := mkTransposeOptions { to_fields : list (string * Z) }.

Record Job : Type := mkJob {
  in_ : path_t;
  out : path_t;
  transposeOptions : option TransposeOptions
}.

Definition BatchJob := list Job.

(** A default-constructed [Job]. *)
Definition Job_default : Job := mkJob "" "" None.

Definition set_out (j : Job) (p : path_t) : Job :=
  mkJob (in_ j) p (transposeOptions j).

Definition set_transposeOptions (j : Job) (t : TransposeOptions) : Job :=
  mkJob (in_ j) (out j) (Some t).

(** ** Collaborators, events and the world *)

Definition Writer := nat.     (* a writer of the registry *)
Definition Project := nat.    (* a notation project, as created *)
Definition UriQuery := string.

(** What the controller reads of a notation: its name and its pages. *)
Record Notation : Type := mkNotation { name : string; pages : nat }.

(** The master notation of a loaded project: the full score and its
    excerpts (the parts), in their order. *)
Record MasterNotation : Type := mkMasterNotation {
  notation : Notation;
  excerpts : list Notation
}.

Inductive OptionKey : Type := UNIT_TYPE | PAGE_NUMBER.
Inductive UnitType : Type := PER_PAGE | PER_PART | MULTI_PART.
Inductive Val : Type := VInt (z : Z) | VUnit (u : UnitType).

(** [INotationWriter::Options], a map from keys to values. *)
Definition Options := list (OptionKey * Val).

Inductive Event : Type :=
| EvLogInfo (i o : path_t)    (* the log line at the entry of fileConvert *)
| EvProgressStart
| EvProgress (current total : Z) (label : string)
| EvProgressFinish (r : Ret)
| EvFileRead (p : path_t) (opened : bool)         (* QFile::open, readAll *)
| EvWriterLookup (suffix : string) (w : option Writer)
| EvNewProject (p : option Project)
| EvLoad (p : Project) (i style : path_t) (force : bool) (r : Ret)
| EvClearTrackInputParams (p : Project)
| EvSetActiveSoundProfile (p : Project) (profile : string)
| EvApplyTranspose (p : Project) (t : TransposeOptions) (r : Ret)
| EvSetCurrentProject (p : option Project)
| EvPerform (uri : UriQuery) (r : Ret)
| EvSave (p : Project) (o : path_t) (r : Ret)
| EvOpen (f : path_t) (opened : bool)
| EvSetMeta (f : path_t) (key value : string)
| EvWrite (w : Writer) (n : Notation) (f : path_t) (opts : Options) (r : Ret)
| EvClose (f : path_t).

(** The state the controller acts on: what happened so far, oldest first, and
    the process-wide current project of the global context.  Of the log
    lines only the one at the entry of [fileConvert] is an event: it marks
    a conversion that was started. *)
Record World : Type := mkWorld {
  events : list Event;
  currentProject : option Project
}.

Definition emit (e : Event) (w : World) : World :=
  mkWorld (events w ++ [e]) (currentProject w).

(** [globalContext()->setCurrentProject(p)]. *)
Definition setCurrentProject (p : option Project) (w : World) : World :=
  mkWorld (events w ++ [EvSetCurrentProject p]) p.

Record JsonParse : Type := mkJsonParse {
  noError : bool;            (* err.error == QJsonParseError::NoError *)
  errorString : string;
  document : QJsonValue
}.

(** Everything the controller uses and does not define.  The first block is
    pure helpers of the framework, the second the collaborators. *)
Record Env : Type := mkEnv {
  (* io::suffix, io::completeBasename, io::dirpath *)
  io_suffix : path_t -> string;
  io_completeBasename : path_t -> string;
  io_dirpath : path_t -> string;
  (* whether the platform's native separator is the backslash *)
  nativeBackslash : bool;
  (* the message make_ret gives a code, Ret::toString *)
  codeText : Code -> string;
  Ret_toString : Ret -> string;
  (* ConverterUtils *)
  parseTransposeOptions : QJsonObject -> RetVal TransposeOptions;
  parseTransposeOptionsJson : string -> RetVal TransposeOptions;
  applyTranspose : World -> Project -> TransposeOptions -> Ret;
  (* QFile and QJsonDocument::fromJson *)
  readAll : World -> path_t -> option string;
  fromJson : string -> JsonParse;
  (* writers(), notationCreator(), the project, extensionsProvider() *)
  writers_writer : World -> string -> option Writer;
  newProject : World -> option Project;
  load : World -> Project -> path_t -> path_t -> bool -> Ret;
  masterNotation : World -> Project -> MasterNotation;
  save : World -> Project -> path_t -> Ret;
  UriQuery_isValid : UriQuery -> bool;
  perform : World -> UriQuery -> Ret;
  (* muse::io::File and the writer *)
  file_open : World -> path_t -> bool;
  write : World -> Writer -> Notation -> path_t -> Options -> Ret
}.

(** Modelled from the spec: [engraving::MSCZ], [MSCX] and [MSCS] are declared
    in the engraving module; the spec names the native save formats mscz, mscx
    and mscs. *)
Definition MSCZ : string := "mscz".
Definition MSCX : string := "mscx".
Definition MSCS : string := "mscs".

Definition PDF_SUFFIX : string := "pdf".
Definition PNG_SUFFIX : string := "png".
Definition SVG_SUFFIX : string := "svg".
Definition MP3_SUFFIX : string := "mp3".

(** [static_cast<int>] of a [size_t]: the value modulo 2^32, read as a signed
    32-bit integer. *)
Definition static_cast_int (i : nat) : Z :=
  ((Z.of_nat i + 2 ^ 31) mod 2 ^ 32 - 2 ^ 31)%Z.

(** ** The controller *)

Section Controller.

Variable E : Env.

Definition make_ret (c : Code) : Ret := mkRet c (codeText E c).

(** [File file(path); file.open(File::WriteOnly)]. *)
Definition openFile (w : World) (f : path_t) : bool * World :=
  let opened := file_open E w f in
  (opened, emit (EvOpen f opened) w).

(** [writer->write(notation, file, options)]. *)
Definition writeFile (w : World) (writer : Writer) (n : Notation) (f : path_t)
    (opts : Options) : Ret * World :=
  let r := write E w writer n f opts in
  (r, emit (EvWrite writer n f opts r) w).

(** *** parseBatchJob *)

(** Modelled from the spec: [io::Dir::fromNativeSeparators] belongs to the
    framework's directory helper; the spec has the path "normalized to a
    canonical path form (platform separators normalized)": a native
    backslash becomes a slash. *)
Definition fromNativeSeparators (p : string) : string :=
  if nativeBackslash E then Str.replace "\" "/" p else p.

Definition correctUserInputPath (p : string) : string :=
  fromNativeSeparators p.

(** The body of the inner loop over the elements of an array-valued [out]:
    the job that is pushed for [outItem]. *)
Definition parseOutItem (job : Job) (outItem : QJsonValue) : Job :=
  let partJob := job in
  if Json.isString outItem then
    set_out partJob (correctUserInputPath (Json.toString outItem))
  else if Json.isArray outItem && Nat.eqb (length (Json.toArray outItem)) 2 then
    let partOutArray := Json.toArray outItem in
    let prefix := correctUserInputPath (Json.toString (Json.at_ partOutArray 0)) in
    let suffix := Json.toString (Json.at_ partOutArray 1) in
    set_out partJob (prefix +++ "*" +++ suffix)
  else partJob.

(** The loop over the job objects; [jobs] is [rv.val] as filled so far.  A
    transpose object that does not parse returns at once, with the error in
    [rv.ret]. *)
Fixpoint parseJobs (arr : QJsonArray) (jobs : BatchJob) : RetVal BatchJob :=
  match arr with
  | [] => mkRetVal (make_ret Ok) jobs
  | obj :: arr' =>
      let job := mkJob (correctUserInputPath (Json.toString (Json.get obj "in"))) "" None in
      let transposeOptionsObj := Json.toObject (Json.get obj "transpose") in
      let parsed :=
        if Json.isEmpty transposeOptionsObj then inr job
        else
          let t := parseTransposeOptions E transposeOptionsObj in
          if success (ret t) then inr (set_transposeOptions job (val t))
          else inl (ret t) in
      match parsed with
      | inl r => mkRetVal r jobs
      | inr job =>
          let outValue := Json.get obj "out" in
          if Json.isString outValue then
            parseJobs arr' (jobs ++ [set_out job (correctUserInputPath (Json.toString outValue))])
          else if Json.isArray outValue then
            parseJobs arr'
              (fold_left (fun acc outItem => acc ++ [parseOutItem job outItem])
                         (Json.toArray outValue) jobs)
          else parseJobs arr' jobs
      end
  end.

Definition parseBatchJob (w : World) (batchJobFile : path_t)
    : RetVal BatchJob * World :=
  match readAll E w batchJobFile with
  | None =>
      (mkRetVal (make_ret BatchJobFileFailedOpen) [],
       emit (EvFileRead batchJobFile false) w)
  | Some data =>
      let w := emit (EvFileRead batchJobFile true) w in
      let p := fromJson E data in
      if negb (noError p) || negb (Json.isArray (document p)) then
        (mkRetVal (mkRet BatchJobFileFailedParse (errorString p)) [], w)
      else (parseJobs (Json.toArray (document p)) [], w)
  end.

(** *** Writing a notation *)

Definition convertByExtension (w : World) (writer : Writer) (n : Notation)
    (o : path_t) (extensionUri : UriQuery) : Ret * World :=
  let r := perform E w extensionUri in
  let w := emit (EvPerform extensionUri r) w in
  if negb (success r) then (r, w)
  else
    let (opened, w) := openFile w o in
    if negb opened then (make_ret OutFileFailedOpen, w)
    else
      let w := emit (EvSetMeta o "file_path" o) w in
      let (r, w) := writeFile w writer n o [] in
      if negb (success r) then (make_ret OutFileFailedWrite, w)
      else (make_ret Ok, emit (EvClose o) w).

Definition isConvertPageByPage (suffix : string) : bool :=
  existsb (String.eqb suffix) [PNG_SUFFIX; SVG_SUFFIX].

(** The name of the file of the page with index [i]. *)
Definition pageFilePath (o : path_t) (i : nat) : string :=
  Str.arg (io_dirpath E o +++ "/" +++ io_completeBasename E o +++ "-%1."
           +++ io_suffix E o)
          (Str.number (i + 1)).

(** The loop of [convertPageByPage] from index [i] on, with [remaining]
    pages still to write. *)
Fixpoint convertPages (remaining i : nat) (w : World) (writer : Writer)
    (n : Notation) (o : path_t) : Ret * World :=
  match remaining with
  | O => (make_ret Ok, w)
  | S remaining' =>
      let filePath := pageFilePath o i in
      let (opened, w) := openFile w filePath in
      if negb opened then (make_ret OutFileFailedOpen, w)
      else
        let options := [(PAGE_NUMBER, VInt (static_cast_int i))] in
        let w := emit (EvSetMeta filePath "dir_path" o) w in
        let w := emit (EvSetMeta filePath "file_path" filePath) w in
        let (r, w) := writeFile w writer n filePath options in
        if negb (success r) then (make_ret OutFileFailedWrite, w)
        else convertPages remaining' (S i) (emit (EvClose filePath) w) writer n o
  end.

Definition convertPageByPage (w : World) (writer : Writer) (n : Notation)
    (o : path_t) : Ret * World :=
  convertPages (pages n) 0 w writer n o.

Definition convertFullNotation (w : World) (writer : Writer) (n : Notation)
    (o : path_t) : Ret * World :=
  let (opened, w) := openFile w o in
  if negb opened then (make_ret OutFileFailedOpen, w)
  else
    let w := emit (EvSetMeta o "file_path" o) w in
    let (r, w) := writeFile w writer n o [] in
    if negb (success r) then (make_ret OutFileFailedWrite, w)
    else (make_ret Ok, emit (EvClose o) w).

(** *** One file per part *)

(** The path written for the part [partName]: the placeholder of the base
    name replaced by the part's name, in the directory of [o], with the
    extension [ext]. *)
Definition partOutPath (o : path_t) (partName ext : string) : path_t :=
  let baseName := io_completeBasename E o in
  io_dirpath E o +++ "/" +++ Str.replace "*" partName baseName +++ ext.

Fixpoint convertPartsToPdf (notations : list Notation) (w : World)
    (writer : Writer) (o : path_t) : Ret * World :=
  match notations with
  | [] => (make_ret Ok, w)
  | n :: rest =>
      let partOut := partOutPath o (name n) ".pdf" in
      let (opened, w) := openFile w partOut in
      if negb opened then (make_ret OutFileFailedOpen, w)
      else
        let options := [(UNIT_TYPE, VUnit PER_PART)] in
        let (r, w) := writeFile w writer n partOut options in
        if negb (success r) then (make_ret OutFileFailedWrite, w)
        else convertPartsToPdf rest (emit (EvClose partOut) w) writer o
  end.

Definition convertScorePartsToPdf (w : World) (writer : Writer)
    (m : MasterNotation) (o : path_t) : Ret * World :=
  convertPartsToPdf (excerpts m) w writer o.

Fixpoint convertPartsToPngs (notations : list Notation) (w : World)
    (writer : Writer) (o : path_t) : Ret * World :=
  match notations with
  | [] => (make_ret Ok, w)
  | n :: rest =>
      let pngFilePath := partOutPath o (name n) ".png" in
      let (ret2, w) := convertPageByPage w writer n pngFilePath in
      if negb (success ret2) then (ret2, w)
      else convertPartsToPngs rest w writer o
  end.

Definition convertScorePartsToPngs (w : World) (writer : Writer)
    (m : MasterNotation) (o : path_t) : Ret * World :=
  convertPartsToPngs (excerpts m) w writer o.

Fixpoint convertPartsToMp3 (notations : list Notation) (w : World)
    (writer : Writer) (o : path_t) : Ret * World :=
  match notations with
  | [] => (make_ret Ok, w)
  | n :: rest =>
      let partOut := partOutPath o (name n) ".mp3" in
      let (opened, w) := openFile w partOut in
      if negb opened then (make_ret OutFileFailedOpen, w)
      else
        let options := [(UNIT_TYPE, VUnit PER_PART)] in
        let w := emit (EvSetMeta partOut "file_path" partOut) w in
        let (r, w) := writeFile w writer n partOut options in
        if negb (success r) then (make_ret OutFileFailedWrite, w)
        else convertPartsToMp3 rest (emit (EvClose partOut) w) writer o
  end.

Definition convertScorePartsToMp3 (w : World) (writer : Writer)
    (m : MasterNotation) (o : path_t) : Ret * World :=
  convertPartsToMp3 (excerpts m) w writer o.

(** [convertScoreParts(writer, masterNotation, out)]. *)
Definition convertScoreParts (w : World) (writer : Writer)
    (m : MasterNotation) (o : path_t) : Ret * World :=
  let suffix := io_suffix E o in
  if String.eqb suffix PDF_SUFFIX then convertScorePartsToPdf w writer m o
  else if String.eqb suffix PNG_SUFFIX then convertScorePartsToPngs w writer m o
  else if String.eqb suffix MP3_SUFFIX then convertScorePartsToMp3 w writer m o
  else (make_ret NotSupported, w).


(** *** fileConvert *)

(** What [fileConvert] does between registering the project as the current
    one and the deferred reset: the choice of a way to convert. *)
Definition dispatch (w : World) (writer : Writer) (notationProject : Project)
    (o : path_t) (extensionUri : UriQuery) : Ret * World :=
  let suffix := io_suffix E o in
  let baseName := io_completeBasename E o in
  if Str.contains "*" baseName then
    convertScoreParts w writer (masterNotation E w notationProject) o
  else if UriQuery_isValid E extensionUri then
    convertByExtension w writer (notation (masterNotation E w notationProject)) o
                       extensionUri
  else if String.eqb suffix MSCZ || String.eqb suffix MSCX || String.eqb suffix MSCS then
    let r := save E w notationProject o in
    (r, emit (EvSave notationProject o r) w)
  else if isConvertPageByPage suffix then
    convertPageByPage w writer (notation (masterNotation E w notationProject)) o
  else
    convertFullNotation w writer (notation (masterNotation E w notationProject)) o.

(** The tail of [fileConvert]: the project becomes the current one, the
    conversion runs, and the deferred reset clears the current project
    whatever the conversion returned. *)
Definition convertAsCurrent (w : World) (writer : Writer)
    (notationProject : Project) (o : path_t) (extensionUri : UriQuery)
    : Ret * World :=
  let w := setCurrentProject (Some notationProject) w in
  let (r, w) := dispatch w writer notationProject o extensionUri in
  (r, setCurrentProject None w).

(** [fileConvert] with the transposition already parsed. *)
Definition fileConvert (w : World) (i o stylePath : path_t) (forceMode : bool)
    (soundProfile : string) (extensionUri : UriQuery)
    (transposeOpts : option TransposeOptions) : Ret * World :=
  let w := emit (EvLogInfo i o) w in
  let suffix := io_suffix E o in
  let writer := writers_writer E w suffix in
  let w := emit (EvWriterLookup suffix writer) w in
  match writer with
  | None => (make_ret ConvertTypeUnknown, w)
  | Some writer =>
      let np := newProject E w in
      let w := emit (EvNewProject np) w in
      match np with
      | None => (make_ret UnknownError, w)
      | Some notationProject =>
          let r := load E w notationProject i stylePath forceMode in
          let w := emit (EvLoad notationProject i stylePath forceMode r) w in
          if negb (success r) then (make_ret InFileFailedLoad, w)
          else
            let w :=
              if String.eqb soundProfile "" then w
              else emit (EvSetActiveSoundProfile notationProject soundProfile)
                        (emit (EvClearTrackInputParams notationProject) w) in
            match transposeOpts with
            | None => convertAsCurrent w writer notationProject o extensionUri
            | Some t =>
                let r := applyTranspose E w notationProject t in
                let w := emit (EvApplyTranspose notationProject t r) w in
                if negb (success r) then (r, w)
                else convertAsCurrent w writer notationProject o extensionUri
            end
      end
  end.

(** [fileConvert] with the transposition as JSON text. *)
Definition fileConvertJson (w : World) (i o stylePath : path_t) (forceMode : bool)
    (soundProfile : string) (extensionUri : UriQuery)
    (transposeOptionsJson : string) : Ret * World :=
  if String.eqb transposeOptionsJson "" then
    fileConvert w i o stylePath forceMode soundProfile extensionUri None
  else
    let t := parseTransposeOptionsJson E transposeOptionsJson in
    if negb (success (ret t)) then (ret t, w)
    else fileConvert w i o stylePath forceMode soundProfile extensionUri (Some (val t)).

(** *** batchConvert *)

(** [if (progress) { progress->... }]: the sink is told only when one was
    passed. *)
Definition notify (progress : bool) (e : Event) (w : World) : World :=
  if progress then emit e w else w.

(** The entry of the error list for a job that failed with [r]. *)
Definition errorEntry (r : Ret) (job : Job) : string :=
  Str.arg (Str.arg (Str.arg "failed convert, err: %1, in: %2, out: %3"
                            (Ret_toString E r))
                   (in_ job))
          (out job).

(** The loop over the jobs; [current] and [errors] are the locals of
    [batchConvert], [progress] tells whether a progress sink was passed. *)
Fixpoint convertJobs (jobs : list Job) (total : Z) (stylePath : path_t)
    (forceMode : bool) (soundProfile : string) (extensionUri : UriQuery)
    (progress : bool) (current : Z) (errors : list string) (w : World)
    : Z * list string * World :=
  match jobs with
  | [] => (current, errors, w)
  | job :: rest =>
      let current := if progress then (current + 1)%Z else current in
      let w := notify progress (EvProgress current total (in_ job)) w in
      let (r, w) := fileConvert w (in_ job) (out job) stylePath forceMode
                                soundProfile extensionUri (transposeOptions job) in
      let errors := if negb (success r) then errors ++ [errorEntry r job] else errors in
      convertJobs rest total stylePath forceMode soundProfile extensionUri
                  progress current errors w
  end.

Definition batchConvert (w : World) (batchJobFile stylePath : path_t)
    (forceMode : bool) (soundProfile : string) (extensionUri : UriQuery)
    (progress : bool) : Ret * World :=
  let w := notify progress EvProgressStart w in
  let (batchJob, w) := parseBatchJob w batchJobFile in
  if negb (success (ret batchJob)) then
    (ret batchJob, notify progress (EvProgressFinish (ret batchJob)) w)
  else
    let total := Z.of_nat (length (val batchJob)) in
    let '(_, errors, w) :=
      convertJobs (val batchJob) total stylePath forceMode soundProfile
                  extensionUri progress 0%Z [] w in
    let r :=
      match errors with
      | [] => make_ret Ok
      | _ => mkRet ConvertFailed (String.concat Str.newline errors)
      end in
    (r, notify progress (EvProgressFinish r) w).

(** *** Notions the properties are stated with *)





(** The job object's transpose member is a non-empty object that does not
    parse. *)
Definition transposeFails (obj : QJsonValue) : bool :=
  let o := Json.toObject (Json.get obj "transpose") in
  negb (Json.isEmpty o) && negb (success (ret (parseTransposeOptions E o))).

(** The job a job object stands for, before its outputs are looked at. *)
Definition baseJob (obj : QJsonValue) : Job :=
  let o := Json.toObject (Json.get obj "transpose") in
  mkJob (correctUserInputPath (Json.toString (Json.get obj "in"))) ""
        (if Json.isEmpty o then None else Some (val (parseTransposeOptions E o))).

(** The jobs one job object expands to: one for a string-valued out, one per
    element of an array-valued out, none otherwise. *)
Definition expand (obj : QJsonValue) : list Job :=
  match Json.get obj "out" with
  | JString s => [set_out (baseJob obj) (correctUserInputPath s)]
  | JArray items => map (parseOutItem (baseJob obj)) items
  | _ => []
  end.

(** The job object names an output: its out member is a string or an array
    that is not empty. *)
Definition declaresOutput (obj : QJsonValue) : bool :=
  match Json.get obj "out" with
  | JString _ => true
  | JArray (_ :: _) => true
  | _ => false
  end.


(** The name the page with index [i] is expected under. *)
Definition pageName (o : path_t) (i : nat) : string :=
  io_dirpath E o +++ "/" +++ io_completeBasename E o +++ "-"
  +++ Str.number (i + 1) +++ "." +++ io_suffix E o.

(** What a page written without failure leaves in the world. *)
Definition pageEvents (writer : Writer) (n : Notation) (o : path_t)
    (ir : nat * Ret) : list Event :=
  let f := pageName o (fst ir) in
  [EvOpen f true; EvSetMeta f "dir_path" o; EvSetMeta f "file_path" f;
   EvWrite writer n f [(PAGE_NUMBER, VInt (Z.of_nat (fst ir)))] (snd ir);
   EvClose f].

End Controller.

(** The jobs of a batch that failed, each with its result. *)
Definition failures (jobs : list Job) (rets : list Ret) : list (Job * Ret) :=
  filter (fun jr => negb (success (snd jr))) (combine jobs rets).

(** The conversions that were started, as logged on entry. *)
Definition attempts (evs : list Event) : list (path_t * path_t) :=
  flat_map (fun e => match e with EvLogInfo i o => [(i, o)] | _ => [] end) evs.

(** The files that were opened for writing. *)
Definition openedFiles (evs : list Event) : list path_t :=
  flat_map (fun e => match e with EvOpen f true => [f] | _ => [] end) evs.

(** The events of a conversion proper: the extension, the save, the files and
    the writer. *)
Definition conversionEvent (e : Event) : bool :=
  match e with
  | EvPerform _ _ | EvSave _ _ _ | EvOpen _ _ | EvSetMeta _ _ _
  | EvWrite _ _ _ _ _ | EvClose _ => true
  | _ => false
  end.

(** The events that prepare a conversion: the registry, the creation and
    loading of the project, the sound profile and the transposition. *)
Definition preparationEvent (e : Event) : bool :=
  match e with
  | EvWriterLookup _ _ | EvNewProject _ | EvLoad _ _ _ _ _
  | EvClearTrackInputParams _ | EvSetActiveSoundProfile _ _
  | EvApplyTranspose _ _ _ => true
  | _ => false
  end.

(** [w'] is [w] after further events, all of the kind [P], and with the
    current project as it was. *)
Definition grows (P : Event -> bool) (w w' : World) : Prop :=
  exists added,
    events w' = events w ++ added /\
    forallb P added = true /\
    currentProject w' = currentProject w.

(** ** A concrete environment

    An instance of every collaborator, to run the controller on examples. *)

Module Sample.

(** [s] cut at the last occurrence of [c]. *)
Fixpoint splitLast (c : ascii) (s : string) : option (string * string) :=
  match s with
  | EmptyString => None
  | String a s' =>
      match splitLast c s' with
      | Some (l, r) => Some (String a l, r)
      | None => if Ascii.eqb a c then Some (EmptyString, s') else None
      end
  end.

(** The part of a path after its last slash. *)
Definition fileName (p : path_t) : string :=
  match splitLast "/" p with Some (_, f) => f | None => p end.

(** Modelled from the spec: [io::dirpath] belongs to the framework's path
    helper, which is not among the sources at hand.  The spec resolves a name
    from "the directory and base name of the template": the directory is
    what precedes the last slash of the path. *)
Definition dirpath (p : path_t) : string :=
  match splitLast "/" p with
  | Some (EmptyString, _) => "/"
  | Some (d, _) => d
  | None => "."
  end.

(** Modelled from the spec: [io::completeBasename] belongs to the same path
    helper.  The "base name of the template" is the file name up to its last
    dot. *)
Definition completeBasename (p : path_t) : string :=
  match splitLast "." (fileName p) with
  | Some (b, _) => b
  | None => fileName p
  end.

(** Modelled from the spec: [io::suffix] belongs to the same path helper.
    The "output suffix" by which the spec selects a writer is what follows
    the last dot of the file name, empty when there is no dot. *)
Definition suffix (p : path_t) : string :=
  match splitLast "." (fileName p) with
  | Some (_, x) => x
  | None => ""
  end.

(** The messages of the result codes. *)
Definition messageOf (c : Code) : string :=
  match c with
  | Ok => "ok"
  | NotSupported => "not supported"
  | UnknownError => "unknown error"
  | BatchJobFileFailedOpen => "failed open batch job file"
  | BatchJobFileFailedParse => "failed parse batch job file"
  | ConvertTypeUnknown => "unknown convert type"
  | InFileFailedLoad => "failed load in file"
  | OutFileFailedOpen => "failed open out file"
  | OutFileFailedWrite => "failed write out file"
  | ConvertFailed => "failed convert"
  | Other _ => "error"
  end.

(** A transpose object parses when it names a mode. *)
Definition parseTranspose (o : QJsonObject) : RetVal TransposeOptions :=
  match Json.value o "mode" with
  | JString _ => mkRetVal (mkRet Ok "ok") (mkTransposeOptions [("mode", 1%Z)])
  | _ => mkRetVal (mkRet (Other 7) "bad transpose options") (mkTransposeOptions [])
  end.

(** The registry of writers. *)
Definition writers (suffix : string) : option Writer :=
  if String.eqb suffix "pdf" then Some 1
  else if String.eqb suffix "png" then Some 2
  else if String.eqb suffix "svg" then Some 3
  else if String.eqb suffix "mp3" then Some 4
  else if String.eqb suffix "mscz" then Some 5
  else if String.eqb suffix "musicxml" then Some 6
  else None.

(** A score of two pages with the parts Violin and Cello, one page each. *)
Definition score : MasterNotation :=
  mkMasterNotation (mkNotation "Score" 2)
                   [mkNotation "Violin" 1; mkNotation "Cello" 1].

(** The environment in which the batch file holds [doc]; every input loads
    but those named in [broken], every file opens but those in [locked], and
    every write succeeds. *)
Definition env (doc : QJsonValue) (broken locked : list path_t) : Env :=
  {| io_suffix := suffix;
     io_completeBasename := completeBasename;
     io_dirpath := dirpath;
     nativeBackslash := false;
     codeText := messageOf;
     Ret_toString := text;
     parseTransposeOptions := parseTranspose;
     parseTransposeOptionsJson := fun _ =>
       mkRetVal (mkRet Ok "ok") (mkTransposeOptions []);
     applyTranspose := fun _ _ _ => mkRet Ok "ok";
     readAll := fun _ _ => Some "";
     fromJson := fun _ => mkJsonParse true "" doc;
     writers_writer := fun _ => writers;
     newProject := fun _ => Some 0;
     load := fun _ _ i _ _ =>
       if existsb (String.eqb i) broken then mkRet (Other 3) "cannot read"
       else mkRet Ok "ok";
     masterNotation := fun _ _ => score;
     save := fun _ _ _ => mkRet Ok "ok";
     UriQuery_isValid := fun u => negb (String.eqb u "");
     perform := fun _ _ => mkRet Ok "ok";
     file_open := fun _ f => negb (existsb (String.eqb f) locked);
     write := fun _ _ _ _ _ => mkRet Ok "ok" |}.

Definition world0 : World := mkWorld [] None.

Definition obj (members : list (string * QJsonValue)) : QJsonValue :=
  JObject members.

(** [[{"in":"a.ext","out":[["parts/","pdf"]]}]] *)
Definition docPartsNoDot : QJsonValue :=
  JArray [obj [("in", JString "a.ext");
               ("out", JArray [JArray [JString "parts/"; JString "pdf"]])]].

(** [[{"in":"a.ext","out":[["parts/",".pdf"]]}]] *)
Definition docPartsDot : QJsonValue :=
  JArray [obj [("in", JString "a.ext");
               ("out", JArray [JArray [JString "parts/"; JString ".pdf"]])]].

(** [[{"in":"a.ext"}]] *)
Definition docNoOut : QJsonValue :=
  JArray [obj [("in", JString "a.ext")]].

(** [[{"in":"a.ext","out":["b.pdf","c.svg"]}]] *)
Definition docTwoOuts : QJsonValue :=
  JArray [obj [("in", JString "a.ext");
               ("out", JArray [JString "b.pdf"; JString "c.svg"])]].

(** Three jobs; the second one is handed an input that does not load. *)
Definition docThree : QJsonValue :=
  JArray [obj [("in", JString "one.mscz"); ("out", JString "one.pdf")];
          obj [("in", JString "two.mscz"); ("out", JString "two.pdf")];
          obj [("in", JString "three.mscz"); ("out", JString "three.pdf")]].

(** A valid job followed by one whose transpose object does not parse. *)
Definition docBadTranspose : QJsonValue :=
  JArray [obj [("in", JString "one.mscz"); ("out", JString "one.pdf")];
          obj [("in", JString "two.mscz");
               ("transpose", obj [("interval", JDouble 3)]);
               ("out", JString "two.pdf")]].

(** The environments of the examples. *)
Definition envPartsNoDot : Env := env docPartsNoDot [] [].
Definition envPartsDot : Env := env docPartsDot [] [].
Definition envNoOut : Env := env docNoOut [] [].
Definition envTwoOuts : Env := env docTwoOuts [] [].
Definition envThree : Env := env docThree [] [].
Definition envBadTranspose : Env := env docBadTranspose [] [].

End Sample.

(** ** Further notions *)

(** What the progress sink is told. *)
Definition progressEvent (e : Event) : bool :=
  match e with
  | EvProgressStart | EvProgress _ _ _ | EvProgressFinish _ => true
  | _ => false
  end.

Definition progressOf (evs : list Event) : list Event :=
  filter progressEvent evs.

(** The events of the file layer and the writer. *)
Definition fileEvent (e : Event) : bool :=
  match e with
  | EvOpen _ _ | EvSetMeta _ _ _ | EvWrite _ _ _ _ _ | EvClose _ => true
  | _ => false
  end.

(** The events on the audio settings of a project. *)
Definition soundEvent (e : Event) : bool :=
  match e with
  | EvClearTrackInputParams _ | EvSetActiveSoundProfile _ _ => true
  | _ => false
  end.

(** The results the writing loops make themselves. *)
Definition writingResults (E : Env) : list Ret :=
  map (make_ret E) [Ok; OutFileFailedOpen; OutFileFailedWrite].

(** What a part written to pdf without failure leaves in the world. *)
Definition pdfPartEvents (E : Env) (writer : Writer) (o : path_t)
    (nr : Notation * Ret) : list Event :=
  let f := partOutPath E o (name (fst nr)) ".pdf" in
  [EvOpen f true;
   EvWrite writer (fst nr) f [(UNIT_TYPE, VUnit PER_PART)] (snd nr);
   EvClose f].

(** What a part written to mp3 without failure leaves in the world. *)
Definition mp3PartEvents (E : Env) (writer : Writer) (o : path_t)
    (nr : Notation * Ret) : list Event :=
  let f := partOutPath E o (name (fst nr)) ".mp3" in
  [EvOpen f true;
   EvSetMeta f "file_path" f;
   EvWrite writer (fst nr) f [(UNIT_TYPE, VUnit PER_PART)] (snd nr);
   EvClose f].

(** The notice to the progress sink for the job at position [fst kj],
    counted from one. *)
Definition progressNotice (total : Z) (kj : nat * Job) : Event :=
  EvProgress (Z.of_nat (fst kj)) total (in_ (snd kj)).

(** The settings of the current project. *)
Definition currentEvent (e : Event) : bool :=
  match e with
  | EvSetCurrentProject _ => true
  | _ => false
  end.

(** A project made the current one and cleared again. *)
Definition registration (p : Project) : list Event :=
  [EvSetCurrentProject (Some p); EvSetCurrentProject None].

(** The events by which the course of a batch is followed: what the
    progress sink is told, and the log line that opens each conversion. *)
Definition milestone (e : Event) : bool :=
  match e with
  | EvLogInfo _ _ => true
  | _ => progressEvent e
  end.

(** The events of one turn of the loop of [batchConvert], for the job at
    position [fst (fst kjr)] counted from one: the notice to the progress
    sink when there is one, the log line of the conversion, and then [snd
    kjr], what the conversion did after it. *)
Definition jobSegment (progress : bool) (total : Z)
    (kjr : nat * Job * list Event) : list Event :=
  let job := snd (fst kjr) in
  (if progress then [progressNotice total (fst kjr)] else [])
  ++ EvLogInfo (in_ job) (out job) :: snd kjr.



Section Outcomes.

Variable E : Env.

(** What a page written without failure leaves in the world, with the name
    and the page number as the code computes them. *)
Definition pageFileEvents (writer : Writer) (n : Notation) (o : path_t)
    (ir : nat * Ret) : list Event :=
  let f := pageFilePath E o (fst ir) in
  [EvOpen f true; EvSetMeta f "dir_path" o; EvSetMeta f "file_path" f;
   EvWrite writer n f [(PAGE_NUMBER, VInt (static_cast_int (fst ir)))] (snd ir);
   EvClose f].

(** The page-by-page conversion of [n] returned [r] and added the events
    [added]: the first pages were written, one file each, and either all
    pages were, or the next file did not open, or the next write failed. *)
Definition pagesOutcome (writer : Writer) (n : Notation) (o : path_t)
    (r : Ret) (added : list Event) : Prop :=
  exists (rets : list Ret) (tail : list Event),
    forallb success rets = true /\
    length rets <= pages n /\
    added = flat_map (pageFileEvents writer n o)
                     (combine (seq 0 (length rets)) rets) ++ tail /\
    ((length rets = pages n /\ tail = [] /\ r = make_ret E Ok)
     \/
     (length rets < pages n /\
      tail = [EvOpen (pageFilePath E o (length rets)) false] /\
      r = make_ret E OutFileFailedOpen)
     \/
     (length rets < pages n /\
      exists rw,
        success rw = false /\
        tail =
          [EvOpen (pageFilePath E o (length rets)) true;
           EvSetMeta (pageFilePath E o (length rets)) "dir_path" o;
           EvSetMeta (pageFilePath E o (length rets)) "file_path"
                     (pageFilePath E o (length rets));
           EvWrite writer n (pageFilePath E o (length rets))
                   [(PAGE_NUMBER, VInt (static_cast_int (length rets)))] rw] /\
        r = make_ret E OutFileFailedWrite)).





(** The worlds [fileConvert] passes through on its way to the conversion
    proper, for the writer and the project the collaborators answer with:
    after the log line, after the registry lookup, after the creation and the
    loading of the project, after the sound profile, after the
    transposition. *)
Definition logged (w : World) (i o : path_t) : World :=
  emit (EvLogInfo i o) w.

Definition lookedUp (w : World) (i o : path_t) (writer : Writer) : World :=
  emit (EvWriterLookup (io_suffix E o) (Some writer)) (logged w i o).

Definition created (w : World) (i o : path_t) (writer : Writer) (p : Project)
    : World :=
  emit (EvNewProject (Some p)) (lookedUp w i o writer).

Definition loaded (w : World) (i o stylePath : path_t) (forceMode : bool)
    (writer : Writer) (p : Project) : World :=
  emit (EvLoad p i stylePath forceMode
               (load E (created w i o writer p) p i stylePath forceMode))
       (created w i o writer p).

Definition profiled (w : World) (i o stylePath : path_t) (forceMode : bool)
    (soundProfile : string) (writer : Writer) (p : Project) : World :=
  if String.eqb soundProfile "" then loaded w i o stylePath forceMode writer p
  else emit (EvSetActiveSoundProfile p soundProfile)
            (emit (EvClearTrackInputParams p)
                  (loaded w i o stylePath forceMode writer p)).

Definition transposed (w : World) (i o stylePath : path_t) (forceMode : bool)
    (soundProfile : string) (t : option TransposeOptions) (writer : Writer)
    (p : Project) : World :=
  let w5 := profiled w i o stylePath forceMode soundProfile writer p in
  match t with
  | None => w5
  | Some t0 => emit (EvApplyTranspose p t0 (applyTranspose E w5 p t0)) w5
  end.

(** The steps before the conversion proper all succeed: the registry has
    the writer [writer], the project [p] is created, the input loads, and the
    transposition, if one is asked for, is applied. *)
Definition prepares (w : World) (i o stylePath : path_t) (forceMode : bool)
    (soundProfile : string) (t : option TransposeOptions) (writer : Writer)
    (p : Project) : Prop :=
  writers_writer E (logged w i o) (io_suffix E o) = Some writer /\
  newProject E (lookedUp w i o writer) = Some p /\
  success (load E (created w i o writer p) p i stylePath forceMode) = true /\
  (forall t0, t = Some t0 ->
     success (applyTranspose E
                (profiled w i o stylePath forceMode soundProfile writer p)
                p t0) = true).

(** The world after the first parts [ns] were converted to png, page by
    page, one after the other. *)
Fixpoint afterPngParts (ns : list Notation) (w : World) (writer : Writer)
    (o : path_t) : World :=
  match ns with
  | [] => w
  | n :: rest =>
      afterPngParts rest
        (snd (convertPageByPage E w writer n (partOutPath E o (name n) ".png")))
        writer o
  end.

End Outcomes.

(** Further environments for the examples. *)
Module Cases.

(** [e] with a batch file that cannot be opened. *)
Definition unreadable (e : Env) : Env :=
  mkEnv (io_suffix e) (io_completeBasename e) (io_dirpath e) (nativeBackslash e)
        (codeText e) (Ret_toString e) (parseTransposeOptions e)
        (parseTransposeOptionsJson e) (applyTranspose e)
        (fun _ _ => None) (fromJson e) (writers_writer e) (newProject e)
        (load e) (masterNotation e) (save e) (UriQuery_isValid e) (perform e)
        (file_open e) (write e).

Definition envUnreadable : Env := unreadable Sample.envThree.

(** The batch file holds a JSON object, not an array. *)
Definition envNotArray : Env :=
  Sample.env (JObject [("in", JString "a.ext")]) [] [].

(** Two job objects, the first with a transposition that parses. *)
Definition docTransposed : QJsonValue :=
  JArray [Sample.obj [("in", JString "one.mscz");
                      ("transpose", Sample.obj [("mode", JString "to_key")]);
                      ("out", JArray [JString "one.pdf"; JString "one.png"])];
          Sample.obj [("in", JString "two.mscz"); ("out", JString "two.pdf")]].

Definition envTransposed : Env := Sample.env docTransposed [] [].



End Cases.

(** * Properties *)

(** ** Strings and place markers *)


Lemma append_empty_r (a : string) : a +++ "" = a.
Proof.
  induction a as [|x a IH]; simpl; [reflexivity|].
  now rewrite IH.
Qed.




Lemma plain_cons (x : ascii) (a : string) :
  Str.plain (String x a) = true ->
  Ascii.eqb x "%" = false /\ Str.plain a = true.
Proof.
  unfold Str.plain. simpl.
  destruct (Ascii.eqb x "%"); simpl; intros H; [discriminate|].
  now split.
Qed.


Lemma has_marker_skip (d x : ascii) (s : string) :
  Ascii.eqb x "%" = false ->
  Str.has_marker d (String x s) = Str.has_marker d s.
Proof.
  intros Hx. destruct s as [|y t]; simpl; [reflexivity|].
  now rewrite Hx.
Qed.


(** A marker cannot begin inside a plain prefix, nor across its end. *)
Lemma has_marker_plain_append (d : ascii) (a s : string) :
  Str.plain a = true -> Str.has_marker d (a +++ s) = Str.has_marker d s.
Proof.
  induction a as [|x a IH]; intros Ha; [reflexivity|].
  apply plain_cons in Ha as [Hx Ha].
  change (String x a +++ s) with (String x (a +++ s)).
  rewrite has_marker_skip by assumption. now apply IH.
Qed.


Lemma has_marker_plain (d : ascii) (a : string) :
  Str.plain a = true -> Str.has_marker d a = false.
Proof.
  intros Ha. rewrite <- (append_empty_r a).
  now rewrite has_marker_plain_append.
Qed.





(** ** The entry of the error list *)




(** ** How the conversions extend the world *)

Lemma grows_refl (P : Event -> bool) (w : World) : grows P w w.
Proof.
  exists []. rewrite app_nil_r. now repeat split.
Qed.

Lemma grows_trans (P : Event -> bool) (w1 w2 w3 : World) :
  grows P w1 w2 -> grows P w2 w3 -> grows P w1 w3.
Proof.
  intros [a [Ha [Pa Ca]]] [b [Hb [Pb Cb]]].
  exists (a ++ b). repeat split.
  - now rewrite Hb, Ha, app_assoc.
  - now rewrite forallb_app, Pa, Pb.
  - congruence.
Qed.

Lemma grows_step (P : Event -> bool) (w w' : World) (e : Event) :
  grows P w w' -> P e = true -> grows P w (emit e w').
Proof.
  intros H He. apply (grows_trans P w w'); [exact H|].
  exists [e]. simpl. now rewrite He.
Qed.

Ltac grows :=
  repeat first
    [ apply grows_refl
    | eassumption
    | apply grows_step; [|reflexivity] ].

Section Frames.

Variable E : Env.

Lemma convertPages_grows (remaining i : nat) (w : World) (writer : Writer)
    (n : Notation) (o : path_t) :
  grows conversionEvent w (snd (convertPages E remaining i w writer n o)).
Proof.
  revert i w. induction remaining as [|k IH]; intros i w; simpl; [grows|].
  destruct (file_open E w (pageFilePath E o i)); simpl; [|grows].
  match goal with |- context [success ?r] => destruct (success r) end;
    simpl; [|grows].
  eapply grows_trans; [|apply IH]. grows.
Qed.

Lemma convertPageByPage_grows (w : World) (writer : Writer) (n : Notation)
    (o : path_t) :
  grows conversionEvent w (snd (convertPageByPage E w writer n o)).
Proof. apply convertPages_grows. Qed.

Lemma convertFullNotation_grows (w : World) (writer : Writer) (n : Notation)
    (o : path_t) :
  grows conversionEvent w (snd (convertFullNotation E w writer n o)).
Proof.
  unfold convertFullNotation. simpl.
  destruct (file_open E w o); simpl; [|grows].
  match goal with |- context [success ?r] => destruct (success r) end;
    simpl; grows.
Qed.

Lemma convertByExtension_grows (w : World) (writer : Writer) (n : Notation)
    (o : path_t) (uri : UriQuery) :
  grows conversionEvent w (snd (convertByExtension E w writer n o uri)).
Proof.
  unfold convertByExtension. simpl.
  destruct (success (perform E w uri)); simpl; [|grows].
  match goal with |- context [file_open E ?w' o] => destruct (file_open E w' o) end;
    simpl; [|grows].
  match goal with |- context [success ?r] => destruct (success r) end;
    simpl; grows.
Qed.

Lemma convertPartsToPdf_grows (ns : list Notation) (w : World)
    (writer : Writer) (o : path_t) :
  grows conversionEvent w (snd (convertPartsToPdf E ns w writer o)).
Proof.
  revert w. induction ns as [|n ns IH]; intros w; simpl; [grows|].
  match goal with |- context [file_open E ?w' ?f] => destruct (file_open E w' f) end;
    simpl; [|grows].
  match goal with |- context [success ?r] => destruct (success r) end;
    simpl; [|grows].
  eapply grows_trans; [|apply IH]. grows.
Qed.

Lemma convertPartsToMp3_grows (ns : list Notation) (w : World)
    (writer : Writer) (o : path_t) :
  grows conversionEvent w (snd (convertPartsToMp3 E ns w writer o)).
Proof.
  revert w. induction ns as [|n ns IH]; intros w; simpl; [grows|].
  match goal with |- context [file_open E ?w' ?f] => destruct (file_open E w' f) end;
    simpl; [|grows].
  match goal with |- context [success ?r] => destruct (success r) end;
    simpl; [|grows].
  eapply grows_trans; [|apply IH]. grows.
Qed.

Lemma convertPartsToPngs_grows (ns : list Notation) (w : World)
    (writer : Writer) (o : path_t) :
  grows conversionEvent w (snd (convertPartsToPngs E ns w writer o)).
Proof.
  revert w. induction ns as [|n ns IH]; intros w; simpl; [grows|].
  pose proof (convertPageByPage_grows w writer n (partOutPath E o (name n) ".png")) as H.
  destruct (convertPageByPage E w writer n (partOutPath E o (name n) ".png"))
    as [r w1]. simpl in H.
  destruct (success r); simpl; [|exact H].
  eapply grows_trans; [exact H|apply IH].
Qed.

Lemma convertScoreParts_grows (w : World) (writer : Writer)
    (m : MasterNotation) (o : path_t) :
  grows conversionEvent w (snd (convertScoreParts E w writer m o)).
Proof.
  unfold convertScoreParts.
  destruct (String.eqb (io_suffix E o) PDF_SUFFIX);
    [apply convertPartsToPdf_grows|].
  destruct (String.eqb (io_suffix E o) PNG_SUFFIX);
    [apply convertPartsToPngs_grows|].
  destruct (String.eqb (io_suffix E o) MP3_SUFFIX);
    [apply convertPartsToMp3_grows|].
  simpl. grows.
Qed.

Lemma dispatch_grows (w : World) (writer : Writer) (p : Project) (o : path_t)
    (uri : UriQuery) :
  grows conversionEvent w (snd (dispatch E w writer p o uri)).
Proof.
  unfold dispatch.
  destruct (Str.contains "*" (io_completeBasename E o));
    [apply convertScoreParts_grows|].
  destruct (UriQuery_isValid E uri); [apply convertByExtension_grows|].
  match goal with |- context [if ?b then _ else _] => destruct b end;
    [simpl; grows|].
  destruct (isConvertPageByPage (io_suffix E o));
    [apply convertPageByPage_grows|apply convertFullNotation_grows].
Qed.

End Frames.

(** ** The shape of a single conversion *)



Lemma attempts_app (a b : list Event) :
  attempts (a ++ b) = attempts a ++ attempts b.
Proof. apply flat_map_app. Qed.

Section Shape.

Variable E : Env.


Lemma convertAsCurrent_shape (w : World) (writer : Writer) (p : Project)
    (o : path_t) (uri : UriQuery) :
  exists conv,
    events (snd (convertAsCurrent E w writer p o uri)) =
      events w ++ EvSetCurrentProject (Some p) :: conv ++ [EvSetCurrentProject None] /\
    forallb conversionEvent conv = true /\
    currentProject (snd (convertAsCurrent E w writer p o uri)) = None.
Proof.
  unfold convertAsCurrent.
  pose proof (dispatch_grows E (setCurrentProject (Some p) w) writer p o uri)
    as [conv [Hev [Hconv _]]].
  destruct (dispatch E (setCurrentProject (Some p) w) writer p o uri) as [r w1].
  simpl in *. exists conv. repeat split; [|exact Hconv].
  rewrite Hev, <- !app_assoc. reflexivity.
Qed.

(** Either the conversion ends before the project is registered, and then it
    fails and leaves the current project alone, or the input was loaded and
    the rest is [convertAsCurrent] on the loaded project. *)
Lemma fileConvert_shape (w : World) (i o stylePath : path_t) (forceMode : bool)
    (soundProfile : string) (uri : UriQuery) (t : option TransposeOptions) :
  let result := fileConvert E w i o stylePath forceMode soundProfile uri t in
  exists prep,
    forallb preparationEvent prep = true /\
    ((events (snd result) = events w ++ EvLogInfo i o :: prep /\
      currentProject (snd result) = currentProject w /\
      success (fst result) = false)
     \/
     (exists p writer w0 rl,
        events w0 = events w ++ EvLogInfo i o :: prep /\
        In (EvLoad p i stylePath forceMode rl) prep /\
        success rl = true /\
        result = convertAsCurrent E w0 writer p o uri)).
Proof.
  intros result. subst result. unfold fileConvert.
  set (w1 := emit (EvLogInfo i o) w).
  destruct (writers_writer E w1 (io_suffix E o)) as [writer|] eqn:Hw.
  2:{ exists [EvWriterLookup (io_suffix E o) None]. split; [reflexivity|].
      left. simpl. rewrite <- app_assoc. now repeat split. }
  set (w2 := emit (EvWriterLookup (io_suffix E o) (Some writer)) w1).
  destruct (newProject E w2) as [p|] eqn:Hp.
  2:{ exists [EvWriterLookup (io_suffix E o) (Some writer); EvNewProject None].
      split; [reflexivity|]. left. simpl. rewrite <- !app_assoc.
      now repeat split. }
  set (w3 := emit (EvNewProject (Some p)) w2).
  set (rl := load E w3 p i stylePath forceMode).
  set (w4 := emit (EvLoad p i stylePath forceMode rl) w3).
  destruct (success rl) eqn:Hl; simpl negb; cbv iota.
  2:{ exists [EvWriterLookup (io_suffix E o) (Some writer); EvNewProject (Some p);
              EvLoad p i stylePath forceMode rl].
      split; [reflexivity|]. left. simpl. rewrite <- !app_assoc.
      now repeat split. }
  set (w5 := if String.eqb soundProfile "" then w4
             else emit (EvSetActiveSoundProfile p soundProfile)
                       (emit (EvClearTrackInputParams p) w4)).
  assert (H5 : exists sound,
             events w5 = events w ++ EvLogInfo i o
               :: [EvWriterLookup (io_suffix E o) (Some writer); EvNewProject (Some p);
                   EvLoad p i stylePath forceMode rl] ++ sound /\
             forallb preparationEvent sound = true /\
             currentProject w5 = currentProject w).
  { subst w5. destruct (String.eqb soundProfile "").
    - exists []. simpl. rewrite <- !app_assoc. now repeat split.
    - exists [EvClearTrackInputParams p; EvSetActiveSoundProfile p soundProfile].
      simpl. rewrite <- !app_assoc. now repeat split. }
  destruct H5 as [sound [Hev5 [Hsound Hcur5]]].
  clearbody w5.
  destruct t as [t|].
  - set (rt := applyTranspose E w5 p t).
    exists ([EvWriterLookup (io_suffix E o) (Some writer); EvNewProject (Some p);
             EvLoad p i stylePath forceMode rl] ++ sound
            ++ [EvApplyTranspose p t rt]).
    split.
    { simpl. now rewrite forallb_app, Hsound. }
    destruct (success rt) eqn:Ht; simpl negb; cbv iota.
    + right. exists p, writer, (emit (EvApplyTranspose p t rt) w5), rl.
      repeat split; [|simpl; tauto|exact Hl].
      simpl. rewrite Hev5. simpl. rewrite <- !app_assoc. reflexivity.
    + left. simpl. rewrite Hev5. simpl. rewrite <- !app_assoc.
      now repeat split.
  - exists ([EvWriterLookup (io_suffix E o) (Some writer); EvNewProject (Some p);
             EvLoad p i stylePath forceMode rl] ++ sound).
    split.
    { simpl. exact Hsound. }
    right. exists p, writer, w5, rl.
    repeat split; [|simpl; tauto|exact Hl].
    rewrite Hev5. simpl. reflexivity.
Qed.


End Shape.

(** ** The single-job dispatcher *)

(** C7. When the registry has no writer for the suffix of the output,
    [fileConvert] returns [ConvertTypeUnknown] after the log line and the
    registry lookup and nothing else: no project is created and no input is
    loaded, whatever loading the input would have answered. *)
Theorem fileConvert_unknown_type_before_load
    (E : Env) (w : World) (i o stylePath : path_t) (forceMode : bool)
    (soundProfile : string) (uri : UriQuery) (t : option TransposeOptions) :
  writers_writer E (emit (EvLogInfo i o) w) (io_suffix E o) = None ->
  let result := fileConvert E w i o stylePath forceMode soundProfile uri t in
  fst result = make_ret E ConvertTypeUnknown /\
  code (fst result) = ConvertTypeUnknown /\
  events (snd result) =
    events w ++ [EvLogInfo i o; EvWriterLookup (io_suffix E o) None] /\
  currentProject (snd result) = currentProject w.
Proof.
  intros H result. subst result. unfold fileConvert. rewrite H. simpl.
  rewrite <- app_assoc. now repeat split.
Qed.

Lemma fileConvert_unknown_type_before_load_witness :
  code (fst (fileConvert Sample.envThree Sample.world0 "a.mscz" "a.xyz"
                         "" false "" "" None)) = ConvertTypeUnknown /\
  events (snd (fileConvert Sample.envThree Sample.world0 "a.mscz" "a.xyz"
                           "" false "" "" None)) =
    [EvLogInfo "a.mscz" "a.xyz"; EvWriterLookup "xyz" None].
Proof.
  destruct (fileConvert_unknown_type_before_load Sample.envThree Sample.world0
              "a.mscz" "a.xyz" "" false "" "" None) as [_ [Hc [He _]]].
  - reflexivity.
  - split; [exact Hc|exact He].
Defined.




(** ** Per-part conversion *)

Section PartCodes.

Variable E : Env.

Lemma convertPages_code (remaining i : nat) (w : World) (writer : Writer)
    (n : Notation) (o : path_t) :
  code (fst (convertPages E remaining i w writer n o)) <> NotSupported.
Proof.
  revert i w. induction remaining as [|k IH]; intros i w; simpl; [discriminate|].
  destruct (file_open E w (pageFilePath E o i)); simpl; [|discriminate].
  match goal with |- context [success ?r] => destruct (success r) end;
    simpl; [apply IH|discriminate].
Qed.

Lemma convertPartsToPdf_code (ns : list Notation) (w : World) (writer : Writer)
    (o : path_t) :
  code (fst (convertPartsToPdf E ns w writer o)) <> NotSupported.
Proof.
  revert w. induction ns as [|n ns IH]; intros w; simpl; [discriminate|].
  match goal with |- context [file_open E ?w' ?f] => destruct (file_open E w' f) end;
    simpl; [|discriminate].
  match goal with |- context [success ?r] => destruct (success r) end;
    simpl; [apply IH|discriminate].
Qed.

Lemma convertPartsToMp3_code (ns : list Notation) (w : World) (writer : Writer)
    (o : path_t) :
  code (fst (convertPartsToMp3 E ns w writer o)) <> NotSupported.
Proof.
  revert w. induction ns as [|n ns IH]; intros w; simpl; [discriminate|].
  match goal with |- context [file_open E ?w' ?f] => destruct (file_open E w' f) end;
    simpl; [|discriminate].
  match goal with |- context [success ?r] => destruct (success r) end;
    simpl; [apply IH|discriminate].
Qed.

Lemma convertPartsToPngs_code (ns : list Notation) (w : World) (writer : Writer)
    (o : path_t) :
  code (fst (convertPartsToPngs E ns w writer o)) <> NotSupported.
Proof.
  revert w. induction ns as [|n ns IH]; intros w; simpl; [discriminate|].
  pose proof (convertPages_code (pages n) 0 w writer n
                (partOutPath E o (name n) ".png")) as H.
  unfold convertPageByPage.
  destruct (convertPages E (pages n) 0 w writer n (partOutPath E o (name n) ".png"))
    as [r w1]. simpl in H.
  destruct (success r); simpl; [apply IH|exact H].
Qed.

End PartCodes.

(** C9. The per-part conversion answers [NotSupported] exactly when the
    suffix of the output is none of pdf, png and mp3, and then it does
    nothing else; a job whose output base name holds the placeholder is
    always handed to it. *)
Theorem convertScoreParts_supported_kinds
    (E : Env) (w : World) (writer : Writer) (m : MasterNotation) (o : path_t) :
  let suffix := io_suffix E o in
  let supported := suffix = "pdf" \/ suffix = "png" \/ suffix = "mp3" in
  (code (fst (convertScoreParts E w writer m o)) = NotSupported <-> ~ supported) /\
  (~ supported -> convertScoreParts E w writer m o = (make_ret E NotSupported, w)) /\
  (Str.contains "*" (io_completeBasename E o) = true ->
   forall (p : Project) (uri : UriQuery),
     dispatch E w writer p o uri =
       convertScoreParts E w writer (masterNotation E w p) o).
Proof.
  intros suffix supported. subst suffix supported.
  unfold convertScoreParts, PDF_SUFFIX, PNG_SUFFIX, MP3_SUFFIX.
  destruct (String.eqb_spec (io_suffix E o) "pdf") as [Hpdf|Hpdf].
  { split; [|split].
    - split; [intros H; now apply convertPartsToPdf_code in H|intros H; tauto].
    - intros H; tauto.
    - intros Hc p uri. unfold dispatch, convertScoreParts, PDF_SUFFIX.
      now rewrite Hc, Hpdf. }
  destruct (String.eqb_spec (io_suffix E o) "png") as [Hpng|Hpng].
  { split; [|split].
    - split; [intros H; now apply convertPartsToPngs_code in H|intros H; tauto].
    - intros H; tauto.
    - intros Hc p uri. unfold dispatch, convertScoreParts, PDF_SUFFIX, PNG_SUFFIX.
      now rewrite Hc, Hpng. }
  destruct (String.eqb_spec (io_suffix E o) "mp3") as [Hmp3|Hmp3].
  { split; [|split].
    - split; [intros H; now apply convertPartsToMp3_code in H|intros H; tauto].
    - intros H; tauto.
    - intros Hc p uri.
      unfold dispatch, convertScoreParts, PDF_SUFFIX, PNG_SUFFIX, MP3_SUFFIX.
      now rewrite Hc, Hmp3. }
  split; [|split].
  - split; [intros _; tauto|reflexivity].
  - reflexivity.
  - intros Hc p uri.
    unfold dispatch, convertScoreParts, PDF_SUFFIX, PNG_SUFFIX, MP3_SUFFIX.
    rewrite Hc.
    destruct (String.eqb_spec (io_suffix E o) "pdf"); [contradiction|].
    destruct (String.eqb_spec (io_suffix E o) "png"); [contradiction|].
    destruct (String.eqb_spec (io_suffix E o) "mp3"); [contradiction|].
    reflexivity.
Qed.

Lemma convertScoreParts_supported_kinds_witness :
  convertScoreParts Sample.envThree Sample.world0 3 Sample.score "parts/*.svg" =
    (make_ret Sample.envThree NotSupported, Sample.world0) /\
  dispatch Sample.envThree Sample.world0 3 0 "parts/*.svg" "" =
    (make_ret Sample.envThree NotSupported, Sample.world0).
Proof.
  destruct (convertScoreParts_supported_kinds Sample.envThree Sample.world0 3
              Sample.score "parts/*.svg") as [_ [Hn Hd]].
  assert (Hs : ~ (io_suffix Sample.envThree "parts/*.svg" = "pdf" \/
                  io_suffix Sample.envThree "parts/*.svg" = "png" \/
                  io_suffix Sample.envThree "parts/*.svg" = "mp3")).
  { simpl. intros [H | [H | H]]; discriminate H. }
  split.
  - apply Hn, Hs.
  - rewrite (Hd eq_refl 0 ""). apply Hn, Hs.
Defined.

(** ** The batch-job parser *)

Section Parser.

Variable E : Env.

Lemma parseOutItems_fold (job : Job) (items : QJsonArray) (jobs : BatchJob) :
  fold_left (fun acc outItem => acc ++ [parseOutItem E job outItem]) items jobs =
    jobs ++ map (parseOutItem E job) items.
Proof.
  revert jobs. induction items as [|x items IH]; intros jobs; simpl.
  - now rewrite app_nil_r.
  - rewrite IH, <- app_assoc. reflexivity.
Qed.

(** One turn of the loop: a failing transpose object ends the parse with its
    error, any other job object adds the jobs it expands to. *)
Lemma parseJobs_step (obj : QJsonValue) (arr : QJsonArray) (jobs : BatchJob) :
  parseJobs E (obj :: arr) jobs =
    if transposeFails E obj then
      mkRetVal (ret (parseTransposeOptions E (Json.toObject (Json.get obj "transpose"))))
               jobs
    else parseJobs E arr (jobs ++ expand E obj).
Proof.
  unfold transposeFails, expand, baseJob. simpl.
  destruct (Json.isEmpty (Json.toObject (Json.get obj "transpose"))); simpl.
  - destruct (Json.get obj "out"); simpl; rewrite ?app_nil_r; try reflexivity.
    now rewrite parseOutItems_fold.
  - destruct (success (ret (parseTransposeOptions E
                              (Json.toObject (Json.get obj "transpose"))))); simpl;
      [|reflexivity].
    destruct (Json.get obj "out"); simpl; rewrite ?app_nil_r; try reflexivity.
    now rewrite parseOutItems_fold.
Qed.

Lemma parseJobs_ok (arr : QJsonArray) (jobs : BatchJob) :
  existsb (transposeFails E) arr = false ->
  parseJobs E arr jobs = mkRetVal (make_ret E Ok) (jobs ++ flat_map (expand E) arr).
Proof.
  revert jobs. induction arr as [|obj arr IH]; intros jobs H.
  - simpl. now rewrite app_nil_r.
  - simpl existsb in H. apply orb_false_iff in H as [Ho H].
    rewrite parseJobs_step, Ho, (IH _ H). simpl flat_map.
    now rewrite app_assoc.
Qed.

Lemma parseJobs_failed (pre post : QJsonArray) (obj : QJsonValue) (jobs : BatchJob) :
  existsb (transposeFails E) pre = false ->
  transposeFails E obj = true ->
  parseJobs E (pre ++ obj :: post) jobs =
    mkRetVal (ret (parseTransposeOptions E (Json.toObject (Json.get obj "transpose"))))
             (jobs ++ flat_map (expand E) pre).
Proof.
  revert jobs. induction pre as [|x pre IH]; intros jobs Hpre Hobj.
  - simpl app. rewrite parseJobs_step, Hobj. simpl. now rewrite app_nil_r.
  - simpl existsb in Hpre. apply orb_false_iff in Hpre as [Hx Hpre].
    simpl app. rewrite parseJobs_step, Hx, (IH _ Hpre Hobj). simpl flat_map.
    now rewrite app_assoc.
Qed.

Lemma transposeFails_not_success (obj : QJsonValue) :
  transposeFails E obj = true ->
  success (ret (parseTransposeOptions E (Json.toObject (Json.get obj "transpose"))))
    = false.
Proof.
  unfold transposeFails. intros H. apply andb_true_iff in H as [_ H].
  now apply negb_true_iff in H.
Qed.

Lemma parseJobs_success_iff (arr : QJsonArray) (jobs : BatchJob) :
  success (ret (parseJobs E arr jobs)) = negb (existsb (transposeFails E) arr).
Proof.
  revert jobs. induction arr as [|obj arr IH]; intros jobs; [reflexivity|].
  rewrite parseJobs_step. simpl existsb.
  destruct (transposeFails E obj) eqn:Ho; simpl.
  - now apply transposeFails_not_success.
  - apply IH.
Qed.

(** What [parseBatchJob] does on a file that holds a well-formed array. *)
Lemma parseBatchJob_array (w : World) (f : path_t) (data : string)
    (arr : QJsonArray) :
  readAll E w f = Some data ->
  noError (fromJson E data) = true ->
  document (fromJson E data) = JArray arr ->
  parseBatchJob E w f = (parseJobs E arr [], emit (EvFileRead f true) w).
Proof.
  intros Hr Hn Hd. unfold parseBatchJob. rewrite Hr, Hn, Hd. reflexivity.
Qed.

End Parser.

Lemma existsb_first {A : Type} (f : A -> bool) (l : list A) :
  existsb f l = true ->
  exists pre x post, l = pre ++ x :: post /\ existsb f pre = false /\ f x = true.
Proof.
  induction l as [|a l IH]; simpl; [discriminate|].
  destruct (f a) eqn:Ha; simpl.
  - intros _. exists [], a, l. now repeat split.
  - intros H. destruct (IH H) as [pre [x [post [-> [Hpre Hx]]]]].
    exists (a :: pre), x, post. simpl. rewrite Ha. now repeat split.
Qed.

Lemma expand_length_declares (E : Env) (obj : QJsonValue) :
  declaresOutput obj = true -> 1 <= length (expand E obj).
Proof.
  unfold declaresOutput, expand.
  destruct (Json.get obj "out") as [| | | |[|x items]| |]; simpl;
    intros H; try discriminate; lia.
Qed.

Lemma flat_map_length_declares (E : Env) (arr : QJsonArray) :
  length (filter declaresOutput arr) <= length (flat_map (expand E) arr).
Proof.
  induction arr as [|obj arr IH]; simpl; [lia|].
  rewrite length_app.
  destruct (declaresOutput obj) eqn:Hd; simpl; [|lia].
  pose proof (expand_length_declares E obj Hd). lia.
Qed.

Lemma flat_map_length_sum (E : Env) (arr : QJsonArray) :
  length (flat_map (expand E) arr) =
    list_sum (map (fun obj => length (expand E obj)) arr).
Proof.
  induction arr as [|obj arr IH]; simpl; [reflexivity|].
  now rewrite length_app, IH.
Qed.

(** C4, as the code has it.  For a well-formed array whose parse succeeds,
    the jobs are the expansions of the job objects, in the order of the
    objects: one job for a string-valued out, one job per element of an
    array-valued out in the order of the elements, and none for any other
    out.  The number of jobs is the sum of these numbers, and it is at least
    the number of job objects that name an output. *)
Theorem parseBatchJob_expands_in_order
    (E : Env) (w : World) (f : path_t) (data : string) (arr : QJsonArray) :
  readAll E w f = Some data ->
  noError (fromJson E data) = true ->
  document (fromJson E data) = JArray arr ->
  success (ret (fst (parseBatchJob E w f))) = true ->
  let jobs := val (fst (parseBatchJob E w f)) in
  jobs = flat_map (expand E) arr /\
  (forall obj s, Json.get obj "out" = JString s ->
     expand E obj = [set_out (baseJob E obj) (correctUserInputPath E s)]) /\
  (forall obj items, Json.get obj "out" = JArray items ->
     length (expand E obj) = length items /\
     forall k item, nth_error items k = Some item ->
       nth_error (expand E obj) k = Some (parseOutItem E (baseJob E obj) item)) /\
  (forall obj, Json.isString (Json.get obj "out") = false ->
     Json.isArray (Json.get obj "out") = false -> expand E obj = []) /\
  length jobs = list_sum (map (fun obj => length (expand E obj)) arr) /\
  length (filter declaresOutput arr) <= length jobs.
Proof.
  intros Hr Hn Hd Hs jobs. subst jobs.
  rewrite (parseBatchJob_array E w f data arr Hr Hn Hd) in *. simpl fst in *.
  rewrite parseJobs_success_iff in Hs. apply negb_true_iff in Hs.
  rewrite (parseJobs_ok E arr [] Hs). simpl val.
  split; [reflexivity|].
  split. { intros obj s H. unfold expand. now rewrite H. }
  split.
  { intros obj items H. unfold expand. rewrite H. split.
    - apply length_map.
    - intros k item Hk. now apply map_nth_error. }
  split.
  { intros obj H1 H2. unfold expand.
    destruct (Json.get obj "out"); try reflexivity; discriminate. }
  split; [apply flat_map_length_sum|apply flat_map_length_declares].
Qed.

Lemma parseBatchJob_expands_in_order_witness :
  val (fst (parseBatchJob Sample.envTwoOuts Sample.world0
                          "jobs.json")) =
    flat_map (expand Sample.envTwoOuts)
             (Json.toArray Sample.docTwoOuts).
Proof.
  apply (parseBatchJob_expands_in_order Sample.envTwoOuts
           Sample.world0 "jobs.json" "" (Json.toArray Sample.docTwoOuts));
    reflexivity.
Defined.

(** C4 as stated fails: the batch document [[{"in":"a.ext"}]] is a
    well-formed array of one job object, its parse succeeds, and it yields
    no job. *)
Lemma parseBatchJob_fewer_jobs_than_objects :
  success (ret (fst (parseBatchJob Sample.envNoOut
                                   Sample.world0 "jobs.json"))) = true /\
  length (Json.toArray Sample.docNoOut) = 1 /\
  ~ (length (Json.toArray Sample.docNoOut) <=
     length (val (fst (parseBatchJob Sample.envNoOut
                                     Sample.world0 "jobs.json")))).
Proof.
  split; [reflexivity|]. split; [reflexivity|].
  simpl. lia.
Qed.

(** C6. When a job object of a well-formed array holds a non-empty
    transpose object that does not parse, the parse fails with the error of
    the first such object, and [batchConvert] returns that error at once:
    after reading the file nothing happens but the final notice to the
    progress sink, and no conversion is started. *)
Theorem transpose_failure_aborts_batch
    (E : Env) (w : World) (f stylePath : path_t) (data : string)
    (arr : QJsonArray) (forceMode : bool) (soundProfile : string)
    (uri : UriQuery) (progress : bool) :
  let w1 := notify progress EvProgressStart w in
  readAll E w1 f = Some data ->
  noError (fromJson E data) = true ->
  document (fromJson E data) = JArray arr ->
  existsb (transposeFails E) arr = true ->
  exists pre obj post,
    arr = pre ++ obj :: post /\
    existsb (transposeFails E) pre = false /\
    transposeFails E obj = true /\
    let e := ret (parseTransposeOptions E (Json.toObject (Json.get obj "transpose"))) in
    let result := batchConvert E w f stylePath forceMode soundProfile uri progress in
    success e = false /\
    ret (fst (parseBatchJob E w1 f)) = e /\
    result = (e, notify progress (EvProgressFinish e) (emit (EvFileRead f true) w1)) /\
    attempts (events (snd result)) = attempts (events w).
Proof.
  intros w1 Hr Hn Hd Hex.
  destruct (existsb_first _ _ Hex) as [pre [obj [post [Harr [Hpre Hobj]]]]].
  exists pre, obj, post. repeat split; try assumption.
  - now apply transposeFails_not_success.
  - rewrite (parseBatchJob_array E w1 f data arr Hr Hn Hd). simpl fst.
    rewrite Harr, (parseJobs_failed E pre post obj [] Hpre Hobj). reflexivity.
  - unfold batchConvert. fold w1.
    rewrite (parseBatchJob_array E w1 f data arr Hr Hn Hd).
    rewrite Harr, (parseJobs_failed E pre post obj [] Hpre Hobj). simpl ret.
    now rewrite (transposeFails_not_success E obj Hobj).
  - unfold batchConvert. fold w1.
    rewrite (parseBatchJob_array E w1 f data arr Hr Hn Hd).
    rewrite Harr, (parseJobs_failed E pre post obj [] Hpre Hobj). simpl ret.
    rewrite (transposeFails_not_success E obj Hobj). simpl snd.
    subst w1. destruct progress; simpl; rewrite ?attempts_app; simpl;
      now rewrite ?app_nil_r.
Qed.

Lemma transpose_failure_aborts_batch_witness :
  exists e,
    success e = false /\
    batchConvert Sample.envBadTranspose Sample.world0
                 "jobs.json" "" false "" "" true =
      (e, mkWorld [EvProgressStart; EvFileRead "jobs.json" true; EvProgressFinish e]
                  None).
Proof.
  destruct (transpose_failure_aborts_batch
              Sample.envBadTranspose Sample.world0
              "jobs.json" "" "" (Json.toArray Sample.docBadTranspose)
              false "" "" true eq_refl eq_refl eq_refl eq_refl)
    as [pre [obj [post [_ [_ [_ [Hs [_ [Hb _]]]]]]]]].
  eexists. split; [exact Hs|exact Hb].
Defined.

Lemma correctUserInputPath_empty (E : Env) : correctUserInputPath E "" = "".
Proof.
  unfold correctUserInputPath, fromNativeSeparators.
  now destruct (nativeBackslash E).
Qed.

Lemma parseOutItem_in (E : Env) (job : Job) (item : QJsonValue) :
  in_ (parseOutItem E job item) = in_ job.
Proof.
  unfold parseOutItem.
  destruct (Json.isString item); [reflexivity|].
  now destruct (Json.isArray item && Nat.eqb (length (Json.toArray item)) 2).
Qed.

Lemma expand_in (E : Env) (obj : QJsonValue) (job : Job) :
  In job (expand E obj) ->
  in_ job = correctUserInputPath E (Json.toString (Json.get obj "in")).
Proof.
  unfold expand.
  destruct (Json.get obj "out"); simpl; try contradiction.
  - intros [<- | []]. reflexivity.
  - intros H. apply in_map_iff in H as [item [<- _]].
    apply parseOutItem_in.
Qed.

(** C10. On a well-formed array the parse fails only for a transpose object
    that does not parse.  A job object whose in member is missing or not a
    string gives jobs with an empty input path; one whose out member is
    neither a string nor an array gives no job; and an element of an
    array-valued out that is neither a string nor an array of two elements
    gives a job with an empty output path. *)
Theorem parseBatchJob_validates_only_transpose
    (E : Env) (w : World) (f : path_t) (data : string) (arr : QJsonArray) :
  readAll E w f = Some data ->
  noError (fromJson E data) = true ->
  document (fromJson E data) = JArray arr ->
  let rv := fst (parseBatchJob E w f) in
  success (ret rv) = negb (existsb (transposeFails E) arr) /\
  (existsb (transposeFails E) arr = false ->
     ret rv = make_ret E Ok /\ val rv = flat_map (expand E) arr) /\
  (forall obj job, Json.isString (Json.get obj "in") = false ->
     In job (expand E obj) -> in_ job = "") /\
  (forall obj, Json.isString (Json.get obj "out") = false ->
     Json.isArray (Json.get obj "out") = false -> expand E obj = []) /\
  (forall obj items item,
     Json.get obj "out" = JArray items -> In item items ->
     Json.isString item = false ->
     Json.isArray item && Nat.eqb (length (Json.toArray item)) 2 = false ->
     In (parseOutItem E (baseJob E obj) item) (expand E obj) /\
     out (parseOutItem E (baseJob E obj) item) = "").
Proof.
  intros Hr Hn Hd rv. subst rv.
  rewrite (parseBatchJob_array E w f data arr Hr Hn Hd). simpl fst.
  split; [apply parseJobs_success_iff|].
  split. { intros H. now rewrite (parseJobs_ok E arr [] H). }
  split.
  { intros obj job Hin Hjob. rewrite (expand_in E obj job Hjob).
    destruct (Json.get obj "in"); try apply correctUserInputPath_empty.
    discriminate. }
  split.
  { intros obj H1 H2. unfold expand.
    destruct (Json.get obj "out"); try reflexivity; discriminate. }
  intros obj items item Hout Hitem Hs Ha. split.
  - unfold expand. rewrite Hout. now apply in_map.
  - unfold parseOutItem. now rewrite Hs, Ha.
Qed.

Lemma parseBatchJob_validates_only_transpose_witness :
  success (ret (fst (parseBatchJob Sample.envNoOut
                                   Sample.world0 "jobs.json"))) = true /\
  val (fst (parseBatchJob Sample.envNoOut
                          Sample.world0 "jobs.json")) = [].
Proof.
  destruct (parseBatchJob_validates_only_transpose
              Sample.envNoOut Sample.world0 "jobs.json" ""
              (Json.toArray Sample.docNoOut) eq_refl eq_refl eq_refl)
    as [Hs [Hv _]].
  split; [exact Hs|]. now destruct (Hv eq_refl).
Defined.

(** C1, as the code has it.  The job pushed for an element [[prefix,
    suffix]] of an array-valued out has the output path prefix, placeholder,
    suffix, with nothing put between the placeholder and the suffix: the
    suffix brings its own dot.  For the batch document
    [[{"in":"a.ext","out":[["parts/",".pdf"]]}]] the single job has the
    output template parts/*.pdf, and converting it for a score with the
    parts Violin and Cello writes parts/Violin.pdf and parts/Cello.pdf. *)
Theorem parseBatchJob_templated_out
    (E : Env) (w : World) (f : path_t) (data : string) (arr : QJsonArray) :
  (readAll E w f = Some data ->
   noError (fromJson E data) = true ->
   document (fromJson E data) = JArray arr ->
   success (ret (fst (parseBatchJob E w f))) = true ->
   forall obj items prefix suffix,
     In obj arr ->
     Json.get obj "out" = JArray items ->
     In (JArray [prefix; suffix]) items ->
     exists job,
       In job (val (fst (parseBatchJob E w f))) /\
       in_ job = correctUserInputPath E (Json.toString (Json.get obj "in")) /\
       out job = correctUserInputPath E (Json.toString prefix) +++ "*"
                 +++ Json.toString suffix) /\
  (val (fst (parseBatchJob Sample.envPartsDot Sample.world0 "jobs.json")) =
     [mkJob "a.ext" "parts/*.pdf" None] /\
   openedFiles (events (snd (fileConvert Sample.envPartsDot Sample.world0
                               "a.ext" "parts/*.pdf" "" false "" "" None))) =
     ["parts/Violin.pdf"; "parts/Cello.pdf"]).
Proof.
  split; [|split; reflexivity].
  intros Hr Hn Hd Hs obj items prefix suffix Hobj Hout Hitem.
  rewrite (parseBatchJob_array E w f data arr Hr Hn Hd) in *. simpl fst in *.
  rewrite parseJobs_success_iff in Hs. apply negb_true_iff in Hs.
  rewrite (parseJobs_ok E arr [] Hs). simpl val.
  exists (parseOutItem E (baseJob E obj) (JArray [prefix; suffix])).
  split; [|split].
  - apply in_flat_map. exists obj. split; [exact Hobj|].
    unfold expand. rewrite Hout. now apply in_map.
  - apply parseOutItem_in.
  - reflexivity.
Qed.

Lemma parseBatchJob_templated_out_witness :
  exists job,
    In job (val (fst (parseBatchJob Sample.envPartsDot
                                    Sample.world0 "jobs.json"))) /\
    in_ job = "a.ext" /\ out job = "parts/*.pdf".
Proof.
  destruct (parseBatchJob_templated_out Sample.envPartsDot
              Sample.world0 "jobs.json" "" (Json.toArray Sample.docPartsDot))
    as [H _].
  destruct (H eq_refl eq_refl eq_refl eq_refl
              (Sample.obj [("in", JString "a.ext");
                           ("out", JArray [JArray [JString "parts/"; JString ".pdf"]])])
              [JArray [JString "parts/"; JString ".pdf"]]
              (JString "parts/") (JString ".pdf"))
    as [job [Hin [Hi Ho]]].
  - left. reflexivity.
  - reflexivity.
  - left. reflexivity.
  - exists job. split; [exact Hin|]. split; [exact Hi|exact Ho].
Defined.

(** C1 as stated fails.  For the batch document
    [[{"in":"a.ext","out":[["parts/","pdf"]]}]] the output path of the job
    is parts/*pdf, with no dot; resolved for the parts Violin and Cello it
    gives parts/Violinpdf.pdf and parts/Cellopdf.pdf, and [fileConvert]
    finds no writer for it, the path having no suffix. *)
Lemma parseBatchJob_templated_out_no_dot :
  map out (val (fst (parseBatchJob Sample.envPartsNoDot
                                   Sample.world0 "jobs.json"))) = ["parts/*pdf"] /\
  "parts/*pdf" <> "parts/" +++ "*" +++ "." +++ "pdf" /\
  openedFiles (events (snd (convertScorePartsToPdf
                              Sample.envPartsNoDot
                              Sample.world0 1 Sample.score "parts/*pdf"))) =
    ["parts/Violinpdf.pdf"; "parts/Cellopdf.pdf"] /\
  code (fst (fileConvert Sample.envPartsNoDot Sample.world0
                         "a.ext" "parts/*pdf" "" false "" "" None)) =
    ConvertTypeUnknown.
Proof.
  split; [reflexivity|]. split; [discriminate|]. split; reflexivity.
Qed.

(** ** Page-by-page conversion *)


Section Pages.

Variable E : Env.
Variable o : path_t.

Hypothesis plain_dir : Str.plain (io_dirpath E o) = true.
Hypothesis plain_base : Str.plain (io_completeBasename E o) = true.
Hypothesis plain_suffix : Str.plain (io_suffix E o) = true.


Lemma openedFiles_app (a b : list Event) :
  openedFiles (a ++ b) = openedFiles a ++ openedFiles b.
Proof. apply flat_map_app. Qed.

End Pages.


(** ** The batch runner *)

Lemma failures_cons (job : Job) (r : Ret) (jobs : list Job) (rets : list Ret) :
  failures (job :: jobs) (r :: rets) =
    (if success r then [] else [(job, r)]) ++ failures jobs rets.
Proof.
  unfold failures. simpl. now destruct (success r).
Qed.

Lemma failures_nil_iff (jobs : list Job) (rets : list Ret) :
  length rets = length jobs ->
  (failures jobs rets = [] <-> forallb success rets = true).
Proof.
  revert rets. induction jobs as [|job jobs IH]; intros [|r rets] Hlen;
    try discriminate; simpl.
  - now split.
  - rewrite failures_cons. injection Hlen as Hlen.
    destruct (success r); simpl.
    + now apply IH.
    + split; discriminate.
Qed.

Section Runner.

Variable E : Env.
Variables (total : Z) (stylePath : path_t) (forceMode : bool)
          (soundProfile : string) (uri : UriQuery) (progress : bool).


End Runner.


Lemma attempts_notify (progress : bool) (e : Event) (w : World) :
  attempts [e] = [] -> attempts (events (notify progress e w)) = attempts (events w).
Proof.
  intros He. unfold notify. destruct progress; simpl; [|reflexivity].
  now rewrite attempts_app, He, app_nil_r.
Qed.



(** * Further properties *)

(** ** A batch file that cannot be used *)

(** X1. When the batch file cannot be opened, the parse answers
    [BatchJobFileFailedOpen] with no job, and [batchConvert] returns that
    result: the failed opening is followed only by the final notice to the
    progress sink, and no conversion is started. *)
Theorem batchConvert_unreadable_batch_file
    (E : Env) (w : World) (f stylePath : path_t) (forceMode : bool)
    (soundProfile : string) (uri : UriQuery) (progress : bool) :
  let w1 := notify progress EvProgressStart w in
  readAll E w1 f = None ->
  let e := make_ret E BatchJobFileFailedOpen in
  let result := batchConvert E w f stylePath forceMode soundProfile uri progress in
  parseBatchJob E w1 f = (mkRetVal e [], emit (EvFileRead f false) w1) /\
  result = (e, notify progress (EvProgressFinish e) (emit (EvFileRead f false) w1)) /\
  attempts (events (snd result)) = attempts (events w).
Proof.
  intros w1 Hr e result.
  assert (Hp : parseBatchJob E w1 f = (mkRetVal e [], emit (EvFileRead f false) w1)).
  { unfold parseBatchJob. now rewrite Hr. }
  assert (Hb : result =
               (e, notify progress (EvProgressFinish e) (emit (EvFileRead f false) w1))).
  { subst result. unfold batchConvert. fold w1. rewrite Hp. reflexivity. }
  split; [exact Hp|]. split; [exact Hb|].
  rewrite Hb. simpl snd. rewrite attempts_notify by reflexivity.
  simpl events. rewrite attempts_app. simpl. rewrite app_nil_r.
  subst w1. now rewrite attempts_notify by reflexivity.
Qed.

Lemma batchConvert_unreadable_batch_file_witness :
  batchConvert Cases.envUnreadable Sample.world0 "jobs.json" "" false "" "" true =
    (mkRet BatchJobFileFailedOpen "failed open batch job file",
     mkWorld [EvProgressStart; EvFileRead "jobs.json" false;
              EvProgressFinish (mkRet BatchJobFileFailedOpen
                                      "failed open batch job file")] None).
Proof.
  destruct (batchConvert_unreadable_batch_file Cases.envUnreadable Sample.world0
              "jobs.json" "" false "" "" true eq_refl) as [_ [H _]].
  exact H.
Defined.

(** X2. When the batch file opens but its content does not parse as JSON,
    or parses to something that is not an array, the parse answers
    [BatchJobFileFailedParse] with the message of the JSON parser and no job,
    and [batchConvert] returns that result without starting a conversion. *)
Theorem batchConvert_malformed_batch_file
    (E : Env) (w : World) (f stylePath : path_t) (data : string)
    (forceMode : bool) (soundProfile : string) (uri : UriQuery)
    (progress : bool) :
  let w1 := notify progress EvProgressStart w in
  readAll E w1 f = Some data ->
  noError (fromJson E data) = false \/
  Json.isArray (document (fromJson E data)) = false ->
  let e := mkRet BatchJobFileFailedParse (errorString (fromJson E data)) in
  let result := batchConvert E w f stylePath forceMode soundProfile uri progress in
  parseBatchJob E w1 f = (mkRetVal e [], emit (EvFileRead f true) w1) /\
  result = (e, notify progress (EvProgressFinish e) (emit (EvFileRead f true) w1)) /\
  attempts (events (snd result)) = attempts (events w).
Proof.
  intros w1 Hr Hbad e result.
  assert (Hp : parseBatchJob E w1 f = (mkRetVal e [], emit (EvFileRead f true) w1)).
  { unfold parseBatchJob. rewrite Hr.
    destruct Hbad as [H | H]; rewrite H; simpl; [reflexivity|].
    now rewrite orb_true_r. }
  assert (Hb : result =
               (e, notify progress (EvProgressFinish e) (emit (EvFileRead f true) w1))).
  { subst result. unfold batchConvert. fold w1. rewrite Hp. reflexivity. }
  split; [exact Hp|]. split; [exact Hb|].
  rewrite Hb. simpl snd. rewrite attempts_notify by reflexivity.
  simpl events. rewrite attempts_app. simpl. rewrite app_nil_r.
  subst w1. now rewrite attempts_notify by reflexivity.
Qed.

Lemma batchConvert_malformed_batch_file_witness :
  batchConvert Cases.envNotArray Sample.world0 "jobs.json" "" false "" "" false =
    (mkRet BatchJobFileFailedParse "",
     mkWorld [EvFileRead "jobs.json" true] None).
Proof.
  destruct (batchConvert_malformed_batch_file Cases.envNotArray Sample.world0
              "jobs.json" "" "" false "" "" false eq_refl (or_intror eq_refl))
    as [_ [H _]].
  exact H.
Defined.

(** ** More on the parser *)

(** X3. Parsing is sequential.  While no transpose object fails, the jobs
    of a concatenation of job objects are the jobs of the first part
    followed by those of the second; and once a transpose object has failed,
    what follows it in the array has no influence on the result. *)
Theorem parseJobs_concatenation
    (E : Env) (a b : QJsonArray) (jobs : BatchJob) :
  (existsb (transposeFails E) a = false ->
   parseJobs E (a ++ b) jobs = parseJobs E b (val (parseJobs E a jobs))) /\
  (existsb (transposeFails E) a = true ->
   parseJobs E (a ++ b) jobs = parseJobs E a jobs).
Proof.
  split.
  - revert jobs. induction a as [|obj a IH]; intros jobs H; [reflexivity|].
    simpl existsb in H. apply orb_false_iff in H as [Ho H].
    simpl app. rewrite !parseJobs_step, Ho. now apply IH.
  - revert jobs. induction a as [|obj a IH]; intros jobs H; [discriminate|].
    simpl app. rewrite !parseJobs_step.
    destruct (transposeFails E obj) eqn:Ho; [reflexivity|].
    simpl existsb in H. rewrite Ho in H. now apply IH.
Qed.

Lemma parseJobs_concatenation_witness :
  map out (val (parseJobs Sample.envThree
                  (Json.toArray Sample.docTwoOuts ++ Json.toArray Sample.docThree)
                  [])) =
    ["b.pdf"; "c.svg"; "one.pdf"; "two.pdf"; "three.pdf"] /\
  parseJobs Sample.envThree
    (Json.toArray Sample.docBadTranspose ++ Json.toArray Sample.docThree) [] =
  parseJobs Sample.envThree (Json.toArray Sample.docBadTranspose) [].
Proof.
  destruct (parseJobs_concatenation Sample.envThree
              (Json.toArray Sample.docTwoOuts) (Json.toArray Sample.docThree) [])
    as [H1 _].
  destruct (parseJobs_concatenation Sample.envThree
              (Json.toArray Sample.docBadTranspose) (Json.toArray Sample.docThree) [])
    as [_ H2].
  split.
  - rewrite (H1 eq_refl). reflexivity.
  - exact (H2 eq_refl).
Defined.

Lemma existsb_false_In {A : Type} (f : A -> bool) (l : list A) (x : A) :
  existsb f l = false -> In x l -> f x = false.
Proof.
  induction l as [|a l IH]; simpl; [contradiction|].
  intros H [<- | Hin]; apply orb_false_iff in H as [Ha H]; auto.
Qed.

Lemma parseOutItem_transposeOptions (E : Env) (job : Job) (item : QJsonValue) :
  transposeOptions (parseOutItem E job item) = transposeOptions job.
Proof.
  unfold parseOutItem.
  destruct (Json.isString item); [reflexivity|].
  now destruct (Json.isArray item && Nat.eqb (length (Json.toArray item)) 2).
Qed.

(** X4. Every job of a successful parse comes from a job object of the
    array and has that object's input path and that object's transposition:
    the parsed options when the transpose member is a non-empty object, none
    otherwise.  All outputs of one job object share them. *)
Theorem parseBatchJob_jobs_inherit
    (E : Env) (w : World) (f : path_t) (data : string) (arr : QJsonArray) :
  readAll E w f = Some data ->
  noError (fromJson E data) = true ->
  document (fromJson E data) = JArray arr ->
  success (ret (fst (parseBatchJob E w f))) = true ->
  forall job, In job (val (fst (parseBatchJob E w f))) ->
  exists obj,
    In obj arr /\
    In job (expand E obj) /\
    in_ job = correctUserInputPath E (Json.toString (Json.get obj "in")) /\
    transposeOptions job =
      (let o := Json.toObject (Json.get obj "transpose") in
       if Json.isEmpty o then None
       else Some (val (parseTransposeOptions E o))) /\
    (Json.isEmpty (Json.toObject (Json.get obj "transpose")) = false ->
     success (ret (parseTransposeOptions E
                     (Json.toObject (Json.get obj "transpose")))) = true).
Proof.
  intros Hr Hn Hd Hs job Hjob.
  rewrite (parseBatchJob_array E w f data arr Hr Hn Hd) in *. simpl fst in *.
  rewrite parseJobs_success_iff in Hs. apply negb_true_iff in Hs.
  rewrite (parseJobs_ok E arr [] Hs) in Hjob. simpl val in Hjob.
  apply in_flat_map in Hjob as [obj [Hobj Hin]].
  exists obj. split; [exact Hobj|]. split; [exact Hin|].
  split; [now apply expand_in|]. split.
  - unfold expand in Hin.
    destruct (Json.get obj "out"); simpl in Hin; try contradiction.
    + destruct Hin as [<- | []]. reflexivity.
    + apply in_map_iff in Hin as [item [<- _]].
      now rewrite parseOutItem_transposeOptions.
  - intros Hne.
    pose proof (existsb_false_In _ _ obj Hs Hobj) as Hf.
    unfold transposeFails in Hf. rewrite Hne in Hf. simpl in Hf.
    now apply negb_false_iff in Hf.
Qed.

Lemma parseBatchJob_jobs_inherit_witness :
  exists obj,
    In obj (Json.toArray Cases.docTransposed) /\
    Json.toString (Json.get obj "in") = "one.mscz" /\
    Some (mkTransposeOptions [("mode", 1%Z)]) =
      (let o := Json.toObject (Json.get obj "transpose") in
       if Json.isEmpty o then None
       else Some (val (parseTransposeOptions Cases.envTransposed o))).
Proof.
  destruct (parseBatchJob_jobs_inherit Cases.envTransposed Sample.world0
              "jobs.json" "" (Json.toArray Cases.docTransposed)
              eq_refl eq_refl eq_refl eq_refl
              (mkJob "one.mscz" "one.png"
                     (Some (mkTransposeOptions [("mode", 1%Z)]))))
    as [obj [Hobj [_ [Hin [Ht _]]]]].
  - right. left. reflexivity.
  - exists obj. split; [exact Hobj|]. split; [symmetry; exact Hin|exact Ht].
Defined.

(** ** The placeholder and the paths of the parts *)

Lemma contains_append (c : ascii) (a b : string) :
  Str.contains c (a +++ b) = Str.contains c a || Str.contains c b.
Proof.
  induction a as [|x a IH]; simpl; [reflexivity|].
  destruct (Ascii.eqb x c); simpl; [reflexivity|exact IH].
Qed.

Lemma replace_absent (c : ascii) (v s : string) :
  Str.contains c s = false -> Str.replace c v s = s.
Proof.
  induction s as [|x s IH]; simpl; [reflexivity|].
  destruct (Ascii.eqb x c); [discriminate|].
  intros H. now rewrite IH.
Qed.

Lemma contains_replace (c : ascii) (v s : string) :
  Str.contains c (Str.replace c v s) = Str.contains c s && Str.contains c v.
Proof.
  induction s as [|x s IH]; simpl; [reflexivity|].
  destruct (Ascii.eqb x c) eqn:Hx.
  - rewrite contains_append, IH. simpl.
    destruct (Str.contains c v), (Str.contains c s); reflexivity.
  - simpl. rewrite Hx. exact IH.
Qed.

(** X5. The path written for a part is the directory of the output, a
    slash, the base name with each placeholder replaced by the part's name,
    and the extension.  After the replacement a placeholder is left only
    where the part's name holds one; and when the base name holds no
    placeholder, the path is the same for every part. *)
Theorem partOutPath_placeholder
    (E : Env) (o : path_t) (partName ext : string) :
  partOutPath E o partName ext =
    io_dirpath E o +++ "/"
    +++ Str.replace "*" partName (io_completeBasename E o) +++ ext /\
  Str.contains "*" (Str.replace "*" partName (io_completeBasename E o)) =
    Str.contains "*" (io_completeBasename E o) && Str.contains "*" partName /\
  (Str.contains "*" (io_completeBasename E o) = false ->
   forall other,
     partOutPath E o partName ext = partOutPath E o other ext /\
     partOutPath E o partName ext =
       io_dirpath E o +++ "/" +++ io_completeBasename E o +++ ext).
Proof.
  split; [reflexivity|]. split; [apply contains_replace|].
  intros H other. unfold partOutPath.
  rewrite !(replace_absent "*" _ _ H). now split.
Qed.

Lemma partOutPath_placeholder_witness :
  partOutPath Sample.envThree "parts/all.pdf" "Violin" ".pdf" =
  partOutPath Sample.envThree "parts/all.pdf" "Cello" ".pdf".
Proof.
  destruct (partOutPath_placeholder Sample.envThree "parts/all.pdf" "Violin" ".pdf")
    as [_ [_ H]].
  destruct (H eq_refl "Cello") as [H1 _]. exact H1.
Defined.

(** ** One file per part: the loops *)

Section PartLoops.

Variable E : Env.

Lemma convertPages_result (remaining i : nat) (w : World) (writer : Writer)
    (n : Notation) (o : path_t) :
  In (fst (convertPages E remaining i w writer n o)) (writingResults E).
Proof.
  revert i w. induction remaining as [|k IH]; intros i w; simpl; [now left|].
  destruct (file_open E w (pageFilePath E o i)); simpl; [|right; now left].
  match goal with |- context [success ?r] => destruct (success r) end;
    simpl; [apply IH|right; right; now left].
Qed.

Lemma convertPartsToPdf_result (ns : list Notation) (w : World)
    (writer : Writer) (o : path_t) :
  In (fst (convertPartsToPdf E ns w writer o)) (writingResults E).
Proof.
  revert w. induction ns as [|n ns IH]; intros w; simpl; [now left|].
  match goal with |- context [file_open E ?w' ?f] => destruct (file_open E w' f) end;
    simpl; [|right; now left].
  match goal with |- context [success ?r] => destruct (success r) end;
    simpl; [apply IH|right; right; now left].
Qed.

Lemma convertPartsToMp3_result (ns : list Notation) (w : World)
    (writer : Writer) (o : path_t) :
  In (fst (convertPartsToMp3 E ns w writer o)) (writingResults E).
Proof.
  revert w. induction ns as [|n ns IH]; intros w; simpl; [now left|].
  match goal with |- context [file_open E ?w' ?f] => destruct (file_open E w' f) end;
    simpl; [|right; now left].
  match goal with |- context [success ?r] => destruct (success r) end;
    simpl; [apply IH|right; right; now left].
Qed.

Lemma convertPartsToPngs_result (ns : list Notation) (w : World)
    (writer : Writer) (o : path_t) :
  In (fst (convertPartsToPngs E ns w writer o)) (writingResults E).
Proof.
  revert w. induction ns as [|n ns IH]; intros w; simpl; [now left|].
  pose proof (convertPages_result (pages n) 0 w writer n
                (partOutPath E o (name n) ".png")) as H.
  unfold convertPageByPage.
  destruct (convertPages E (pages n) 0 w writer n (partOutPath E o (name n) ".png"))
    as [r w1]. simpl in H.
  destruct (success r); simpl; [apply IH|exact H].
Qed.

Lemma convertPartsToPdf_run (writer : Writer) (o : path_t) (ns : list Notation)
    (w : World) :
  let result := convertPartsToPdf E ns w writer o in
  exists (rets : list Ret) (tail : list Event),
    forallb success rets = true /\
    length rets <= length ns /\
    events (snd result) =
      events w ++ flat_map (pdfPartEvents E writer o) (combine ns rets) ++ tail /\
    ((length rets = length ns /\ tail = [] /\ fst result = make_ret E Ok)
     \/
     (exists n,
        nth_error ns (length rets) = Some n /\
        tail = [EvOpen (partOutPath E o (name n) ".pdf") false] /\
        fst result = make_ret E OutFileFailedOpen)
     \/
     (exists n r,
        nth_error ns (length rets) = Some n /\
        success r = false /\
        tail = [EvOpen (partOutPath E o (name n) ".pdf") true;
                EvWrite writer n (partOutPath E o (name n) ".pdf")
                        [(UNIT_TYPE, VUnit PER_PART)] r] /\
        fst result = make_ret E OutFileFailedWrite)).
Proof.
  revert w. induction ns as [|n ns IH]; intros w result; subst result.
  - exists [], []. simpl. rewrite app_nil_r. repeat split; auto.
  - simpl convertPartsToPdf.
    set (f := partOutPath E o (name n) ".pdf").
    unfold openFile.
    destruct (file_open E w f) eqn:Hopen; simpl negb; cbv iota.
    2:{ exists [], [EvOpen f false]. simpl. repeat split; auto; try lia.
        right. left. exists n. now repeat split. }
    unfold writeFile.
    set (r := write E (emit (EvOpen f true) w) writer n f
                    [(UNIT_TYPE, VUnit PER_PART)]).
    destruct (success r) eqn:Hr; simpl negb; cbv iota.
    2:{ exists [], [EvOpen f true;
                    EvWrite writer n f [(UNIT_TYPE, VUnit PER_PART)] r].
        simpl. repeat split; auto; try lia.
        - rewrite <- !app_assoc. reflexivity.
        - right. right. exists n, r. now repeat split. }
    set (w2 := emit (EvClose f)
                 (emit (EvWrite writer n f [(UNIT_TYPE, VUnit PER_PART)] r)
                       (emit (EvOpen f true) w))).
    destruct (IH w2) as [rets [tail [Hall [Hlen [Hev Hcases]]]]].
    exists (r :: rets), tail.
    split; [simpl; now rewrite Hr, Hall|].
    split; [simpl; lia|].
    split.
    { rewrite Hev. subst w2. simpl. fold f. rewrite <- !app_assoc. reflexivity. }
    simpl length. simpl nth_error.
    destruct Hcases as [[H1 [H2 H3]] | [[n' [H1 [H2 H3]]] | [n' [r' [H1 [H2 [H3 H4]]]]]]].
    + left. repeat split; auto.
    + right. left. exists n'. now repeat split.
    + right. right. exists n', r'. now repeat split.
Qed.

Lemma convertPartsToMp3_run (writer : Writer) (o : path_t) (ns : list Notation)
    (w : World) :
  let result := convertPartsToMp3 E ns w writer o in
  exists (rets : list Ret) (tail : list Event),
    forallb success rets = true /\
    length rets <= length ns /\
    events (snd result) =
      events w ++ flat_map (mp3PartEvents E writer o) (combine ns rets) ++ tail /\
    ((length rets = length ns /\ tail = [] /\ fst result = make_ret E Ok)
     \/
     (exists n,
        nth_error ns (length rets) = Some n /\
        tail = [EvOpen (partOutPath E o (name n) ".mp3") false] /\
        fst result = make_ret E OutFileFailedOpen)
     \/
     (exists n r,
        nth_error ns (length rets) = Some n /\
        success r = false /\
        tail = [EvOpen (partOutPath E o (name n) ".mp3") true;
                EvSetMeta (partOutPath E o (name n) ".mp3") "file_path"
                          (partOutPath E o (name n) ".mp3");
                EvWrite writer n (partOutPath E o (name n) ".mp3")
                        [(UNIT_TYPE, VUnit PER_PART)] r] /\
        fst result = make_ret E OutFileFailedWrite)).
Proof.
  revert w. induction ns as [|n ns IH]; intros w result; subst result.
  - exists [], []. simpl. rewrite app_nil_r. repeat split; auto.
  - simpl convertPartsToMp3.
    set (f := partOutPath E o (name n) ".mp3").
    unfold openFile.
    destruct (file_open E w f) eqn:Hopen; simpl negb; cbv iota.
    2:{ exists [], [EvOpen f false]. simpl. repeat split; auto; try lia.
        right. left. exists n. now repeat split. }
    unfold writeFile.
    set (w1 := emit (EvSetMeta f "file_path" f) (emit (EvOpen f true) w)).
    set (r := write E w1 writer n f [(UNIT_TYPE, VUnit PER_PART)]).
    destruct (success r) eqn:Hr; simpl negb; cbv iota.
    2:{ exists [], [EvOpen f true; EvSetMeta f "file_path" f;
                    EvWrite writer n f [(UNIT_TYPE, VUnit PER_PART)] r].
        simpl. repeat split; auto; try lia.
        - rewrite <- !app_assoc. reflexivity.
        - right. right. exists n, r. now repeat split. }
    set (w2 := emit (EvClose f)
                 (emit (EvWrite writer n f [(UNIT_TYPE, VUnit PER_PART)] r) w1)).
    destruct (IH w2) as [rets [tail [Hall [Hlen [Hev Hcases]]]]].
    exists (r :: rets), tail.
    split; [simpl; now rewrite Hr, Hall|].
    split; [simpl; lia|].
    split.
    { rewrite Hev. subst w2 w1. simpl. fold f. rewrite <- !app_assoc. reflexivity. }
    simpl length. simpl nth_error.
    destruct Hcases as [[H1 [H2 H3]] | [[n' [H1 [H2 H3]]] | [n' [r' [H1 [H2 [H3 H4]]]]]]].
    + left. repeat split; auto.
    + right. left. exists n'. now repeat split.
    + right. right. exists n', r'. now repeat split.
Qed.

Lemma openedFiles_pdfParts (writer : Writer) (o : path_t) (ns : list Notation)
    (rets : list Ret) :
  length rets = length ns ->
  openedFiles (flat_map (pdfPartEvents E writer o) (combine ns rets)) =
    map (fun n => partOutPath E o (name n) ".pdf") ns.
Proof.
  revert rets. induction ns as [|n ns IH]; intros [|r rets] H;
    try discriminate; [reflexivity|].
  injection H as H. simpl. f_equal. now apply IH.
Qed.

Lemma openedFiles_mp3Parts (writer : Writer) (o : path_t) (ns : list Notation)
    (rets : list Ret) :
  length rets = length ns ->
  openedFiles (flat_map (mp3PartEvents E writer o) (combine ns rets)) =
    map (fun n => partOutPath E o (name n) ".mp3") ns.
Proof.
  revert rets. induction ns as [|n ns IH]; intros [|r rets] H;
    try discriminate; [reflexivity|].
  injection H as H. simpl. f_equal. now apply IH.
Qed.

End PartLoops.

(** X6. The pdf export of the parts writes the excerpts in their order,
    one file per part, each with the option that asks for a single part.
    It stops at the first file that does not open, with
    [OutFileFailedOpen], or at the first write that fails, with
    [OutFileFailedWrite], leaving the parts after it untouched; when it
    returns success, every part's file has been opened, written and
    closed. *)
Theorem convertScorePartsToPdf_run
    (E : Env) (w : World) (writer : Writer) (m : MasterNotation) (o : path_t) :
  let result := convertScorePartsToPdf E w writer m o in
  exists (rets : list Ret) (tail : list Event),
    forallb success rets = true /\
    length rets <= length (excerpts m) /\
    events (snd result) =
      events w ++ flat_map (pdfPartEvents E writer o) (combine (excerpts m) rets)
      ++ tail /\
    ((length rets = length (excerpts m) /\ tail = [] /\ fst result = make_ret E Ok)
     \/
     (exists n,
        nth_error (excerpts m) (length rets) = Some n /\
        tail = [EvOpen (partOutPath E o (name n) ".pdf") false] /\
        fst result = make_ret E OutFileFailedOpen)
     \/
     (exists n r,
        nth_error (excerpts m) (length rets) = Some n /\
        success r = false /\
        tail = [EvOpen (partOutPath E o (name n) ".pdf") true;
                EvWrite writer n (partOutPath E o (name n) ".pdf")
                        [(UNIT_TYPE, VUnit PER_PART)] r] /\
        fst result = make_ret E OutFileFailedWrite)) /\
    (success (fst result) = true ->
     openedFiles (events (snd result)) =
       openedFiles (events w)
       ++ map (fun n => partOutPath E o (name n) ".pdf") (excerpts m)).
Proof.
  intros result. subst result. unfold convertScorePartsToPdf.
  destruct (convertPartsToPdf_run E writer o (excerpts m) w)
    as [rets [tail [Hall [Hlen [Hev Hcases]]]]].
  exists rets, tail. repeat split; try assumption.
  intros Hok. rewrite Hev, !openedFiles_app.
  destruct Hcases as [[H1 [H2 H3]] | [[n [H1 [H2 H3]]] | [n [r [H1 [H2 [H3 H4]]]]]]].
  - rewrite (openedFiles_pdfParts E writer o _ _ H1), H2. simpl.
    now rewrite app_nil_r.
  - rewrite H3 in Hok. discriminate.
  - rewrite H4 in Hok. discriminate.
Qed.

(** X7. The mp3 export of the parts writes the excerpts in their order,
    one file per part, tagging each file with its own path and asking the
    writer for a single part.  It stops at the first file that does not
    open, with [OutFileFailedOpen], or at the first write that fails, with
    [OutFileFailedWrite]; when it returns success, every part's file has
    been opened, written and closed. *)
Theorem convertScorePartsToMp3_run
    (E : Env) (w : World) (writer : Writer) (m : MasterNotation) (o : path_t) :
  let result := convertScorePartsToMp3 E w writer m o in
  exists (rets : list Ret) (tail : list Event),
    forallb success rets = true /\
    length rets <= length (excerpts m) /\
    events (snd result) =
      events w ++ flat_map (mp3PartEvents E writer o) (combine (excerpts m) rets)
      ++ tail /\
    ((length rets = length (excerpts m) /\ tail = [] /\ fst result = make_ret E Ok)
     \/
     (exists n,
        nth_error (excerpts m) (length rets) = Some n /\
        tail = [EvOpen (partOutPath E o (name n) ".mp3") false] /\
        fst result = make_ret E OutFileFailedOpen)
     \/
     (exists n r,
        nth_error (excerpts m) (length rets) = Some n /\
        success r = false /\
        tail = [EvOpen (partOutPath E o (name n) ".mp3") true;
                EvSetMeta (partOutPath E o (name n) ".mp3") "file_path"
                          (partOutPath E o (name n) ".mp3");
                EvWrite writer n (partOutPath E o (name n) ".mp3")
                        [(UNIT_TYPE, VUnit PER_PART)] r] /\
        fst result = make_ret E OutFileFailedWrite)) /\
    (success (fst result) = true ->
     openedFiles (events (snd result)) =
       openedFiles (events w)
       ++ map (fun n => partOutPath E o (name n) ".mp3") (excerpts m)).
Proof.
  intros result. subst result. unfold convertScorePartsToMp3.
  destruct (convertPartsToMp3_run E writer o (excerpts m) w)
    as [rets [tail [Hall [Hlen [Hev Hcases]]]]].
  exists rets, tail. repeat split; try assumption.
  intros Hok. rewrite Hev, !openedFiles_app.
  destruct Hcases as [[H1 [H2 H3]] | [[n [H1 [H2 H3]]] | [n [r [H1 [H2 [H3 H4]]]]]]].
  - rewrite (openedFiles_mp3Parts E writer o _ _ H1), H2. simpl.
    now rewrite app_nil_r.
  - rewrite H3 in Hok. discriminate.
  - rewrite H4 in Hok. discriminate.
Qed.


(** ** What the conversions touch *)

Section FileFrames.

Variable E : Env.

Lemma convertPages_files (remaining i : nat) (w : World) (writer : Writer)
    (n : Notation) (o : path_t) :
  grows fileEvent w (snd (convertPages E remaining i w writer n o)).
Proof.
  revert i w. induction remaining as [|k IH]; intros i w; simpl; [grows|].
  destruct (file_open E w (pageFilePath E o i)); simpl; [|grows].
  match goal with |- context [success ?r] => destruct (success r) end;
    simpl; [|grows].
  eapply grows_trans; [|apply IH]. grows.
Qed.

Lemma convertFullNotation_files (w : World) (writer : Writer) (n : Notation)
    (o : path_t) :
  grows fileEvent w (snd (convertFullNotation E w writer n o)).
Proof.
  unfold convertFullNotation. simpl.
  destruct (file_open E w o); simpl; [|grows].
  match goal with |- context [success ?r] => destruct (success r) end;
    simpl; grows.
Qed.

Lemma convertPartsToPdf_files (ns : list Notation) (w : World)
    (writer : Writer) (o : path_t) :
  grows fileEvent w (snd (convertPartsToPdf E ns w writer o)).
Proof.
  revert w. induction ns as [|n ns IH]; intros w; simpl; [grows|].
  match goal with |- context [file_open E ?w' ?f] => destruct (file_open E w' f) end;
    simpl; [|grows].
  match goal with |- context [success ?r] => destruct (success r) end;
    simpl; [|grows].
  eapply grows_trans; [|apply IH]. grows.
Qed.

Lemma convertPartsToMp3_files (ns : list Notation) (w : World)
    (writer : Writer) (o : path_t) :
  grows fileEvent w (snd (convertPartsToMp3 E ns w writer o)).
Proof.
  revert w. induction ns as [|n ns IH]; intros w; simpl; [grows|].
  match goal with |- context [file_open E ?w' ?f] => destruct (file_open E w' f) end;
    simpl; [|grows].
  match goal with |- context [success ?r] => destruct (success r) end;
    simpl; [|grows].
  eapply grows_trans; [|apply IH]. grows.
Qed.

Lemma convertPartsToPngs_files (ns : list Notation) (w : World)
    (writer : Writer) (o : path_t) :
  grows fileEvent w (snd (convertPartsToPngs E ns w writer o)).
Proof.
  revert w. induction ns as [|n ns IH]; intros w; simpl; [grows|].
  pose proof (convertPages_files (pages n) 0 w writer n
                (partOutPath E o (name n) ".png")) as H.
  unfold convertPageByPage.
  destruct (convertPages E (pages n) 0 w writer n (partOutPath E o (name n) ".png"))
    as [r w1]. simpl in H.
  destruct (success r); simpl; [|exact H].
  eapply grows_trans; [exact H|apply IH].
Qed.

Lemma convertScoreParts_files (w : World) (writer : Writer)
    (m : MasterNotation) (o : path_t) :
  grows fileEvent w (snd (convertScoreParts E w writer m o)).
Proof.
  unfold convertScoreParts.
  destruct (String.eqb (io_suffix E o) PDF_SUFFIX);
    [apply convertPartsToPdf_files|].
  destruct (String.eqb (io_suffix E o) PNG_SUFFIX);
    [apply convertPartsToPngs_files|].
  destruct (String.eqb (io_suffix E o) MP3_SUFFIX);
    [apply convertPartsToMp3_files|].
  simpl. grows.
Qed.

Lemma convertScoreParts_result (w : World) (writer : Writer)
    (m : MasterNotation) (o : path_t) :
  In (fst (convertScoreParts E w writer m o))
     (make_ret E NotSupported :: writingResults E).
Proof.
  unfold convertScoreParts.
  destruct (String.eqb (io_suffix E o) PDF_SUFFIX);
    [right; apply convertPartsToPdf_result|].
  destruct (String.eqb (io_suffix E o) PNG_SUFFIX);
    [right; apply convertPartsToPngs_result|].
  destruct (String.eqb (io_suffix E o) MP3_SUFFIX);
    [right; apply convertPartsToMp3_result|].
  now left.
Qed.

Lemma convertFullNotation_result (w : World) (writer : Writer) (n : Notation)
    (o : path_t) :
  In (fst (convertFullNotation E w writer n o)) (writingResults E).
Proof.
  unfold convertFullNotation. simpl.
  destruct (file_open E w o); simpl; [|right; now left].
  match goal with |- context [success ?r] => destruct (success r) end;
    simpl; [now left|right; right; now left].
Qed.

End FileFrames.

(** X9. The placeholder comes first.  A job whose output base name holds
    the placeholder is converted part by part whatever else was asked: a
    valid extension is not performed and a native suffix is not saved by the
    project.  All that happens are openings, taggings, writes and closings
    of files, the current project stays as it is, and the result is
    success, [NotSupported], [OutFileFailedOpen] or [OutFileFailedWrite]. *)
Theorem dispatch_placeholder_only_files
    (E : Env) (w : World) (writer : Writer) (p : Project) (o : path_t)
    (uri : UriQuery) :
  Str.contains "*" (io_completeBasename E o) = true ->
  let result := dispatch E w writer p o uri in
  (exists added,
     events (snd result) = events w ++ added /\
     forallb fileEvent added = true /\
     currentProject (snd result) = currentProject w) /\
  In (fst result) (make_ret E NotSupported :: writingResults E).
Proof.
  intros Hc result. subst result. unfold dispatch. rewrite Hc. split.
  - apply convertScoreParts_files.
  - apply convertScoreParts_result.
Qed.

Lemma dispatch_placeholder_only_files_witness :
  (exists added,
     events (snd (dispatch Sample.envThree Sample.world0 5 0 "parts/*.mscz"
                           "ext://run")) = events Sample.world0 ++ added /\
     forallb fileEvent added = true /\
     currentProject (snd (dispatch Sample.envThree Sample.world0 5 0
                                   "parts/*.mscz" "ext://run")) =
       currentProject Sample.world0) /\
  In (fst (dispatch Sample.envThree Sample.world0 5 0 "parts/*.mscz" "ext://run"))
     (make_ret Sample.envThree NotSupported :: writingResults Sample.envThree).
Proof.
  exact (dispatch_placeholder_only_files Sample.envThree Sample.world0 5 0
           "parts/*.mscz" "ext://run" eq_refl).
Defined.


(** X11. The conversion by extension is the extension followed by the
    conversion of the whole notation.  When the extension succeeds, the rest
    is [convertFullNotation] in the world after the extension; when it
    fails, its own result is returned as it is and no file is opened. *)
Theorem convertByExtension_composition
    (E : Env) (w : World) (writer : Writer) (n : Notation) (o : path_t)
    (uri : UriQuery) :
  let r := perform E w uri in
  let w1 := emit (EvPerform uri r) w in
  (success r = true ->
   convertByExtension E w writer n o uri = convertFullNotation E w1 writer n o) /\
  (success r = false ->
   convertByExtension E w writer n o uri = (r, w1) /\
   openedFiles (events w1) = openedFiles (events w)).
Proof.
  intros r w1. subst r w1. unfold convertByExtension, convertFullNotation. split.
  - intros H. rewrite H. reflexivity.
  - intros H. rewrite H. split; [reflexivity|].
    simpl. rewrite openedFiles_app. simpl. now rewrite app_nil_r.
Qed.

Lemma convertByExtension_composition_witness :
  convertByExtension Sample.envThree Sample.world0 1 (mkNotation "Score" 2)
                     "out.pdf" "ext://run" =
  convertFullNotation Sample.envThree
    (emit (EvPerform "ext://run" (mkRet Ok "ok")) Sample.world0)
    1 (mkNotation "Score" 2) "out.pdf".
Proof.
  destruct (convertByExtension_composition Sample.envThree Sample.world0 1
              (mkNotation "Score" 2) "out.pdf" "ext://run") as [H _].
  exact (H eq_refl).
Defined.

(** ** The parts of [batchConvert] *)

Lemma parseBatchJob_world (E : Env) (w : World) (f : path_t) :
  exists opened, snd (parseBatchJob E w f) = emit (EvFileRead f opened) w.
Proof.
  unfold parseBatchJob. destruct (readAll E w f) as [data|].
  - exists true.
    now destruct (negb (noError (fromJson E data))
                  || negb (Json.isArray (document (fromJson E data)))).
  - now exists false.
Qed.

(** The result and the world of [batchConvert], from those of the parse and
    of the loop. *)
Lemma batchConvert_unfold (E : Env) (w : World) (f stylePath : path_t)
    (forceMode : bool) (soundProfile : string) (uri : UriQuery)
    (progress : bool) :
  let w1 := notify progress EvProgressStart w in
  let rv := fst (parseBatchJob E w1 f) in
  let w2 := snd (parseBatchJob E w1 f) in
  let done := convertJobs E (val rv) (Z.of_nat (length (val rv))) stylePath
                          forceMode soundProfile uri progress 0%Z [] w2 in
  let result := batchConvert E w f stylePath forceMode soundProfile uri progress in
  (success (ret rv) = false ->
   result = (ret rv, notify progress (EvProgressFinish (ret rv)) w2)) /\
  (success (ret rv) = true ->
   result = (fst result, notify progress (EvProgressFinish (fst result)) (snd done))).
Proof.
  intros w1 rv w2 done result. subst rv w2 done result.
  unfold batchConvert. fold w1.
  destruct (parseBatchJob E w1 f) as [rv w2]. simpl fst. simpl snd. split.
  - intros H. now rewrite H.
  - intros H. rewrite H. simpl negb. cbv iota.
    destruct (convertJobs E (val rv) (Z.of_nat (length (val rv))) stylePath
                forceMode soundProfile uri progress 0%Z [] w2) as [[c errors] w3].
    reflexivity.
Qed.

(** ** The results a conversion can have *)

Section Taxonomy.

Variable E : Env.

Lemma convertByExtension_result (w : World) (writer : Writer) (n : Notation)
    (o : path_t) (uri : UriQuery) :
  success (perform E w uri) = true ->
  In (fst (convertByExtension E w writer n o uri)) (writingResults E).
Proof.
  intros H. unfold convertByExtension. rewrite H. simpl.
  match goal with |- context [file_open E ?w' o] => destruct (file_open E w' o) end;
    simpl; [|right; now left].
  match goal with |- context [success ?r] => destruct (success r) end;
    simpl; [now left|right; right; now left].
Qed.

Lemma dispatch_taxonomy (w : World) (writer : Writer) (p : Project)
    (o : path_t) (uri : UriQuery) :
  let d := dispatch E w writer p o uri in
  exists conv,
    events (snd d) = events w ++ conv /\
    (In (fst d) (make_ret E NotSupported :: writingResults E)
     \/ (success (fst d) = false /\ In (EvPerform uri (fst d)) conv)
     \/ In (EvSave p o (fst d)) conv).
Proof.
  intros d. subst d.
  destruct (dispatch_grows E w writer p o uri) as [conv [Hev _]].
  exists conv. split; [exact Hev|].
  revert Hev. unfold dispatch.
  destruct (Str.contains "*" (io_completeBasename E o)).
  { intros _. left. apply convertScoreParts_result. }
  destruct (UriQuery_isValid E uri).
  { destruct (success (perform E w uri)) eqn:Hp.
    - intros _. left. right. now apply convertByExtension_result.
    - unfold convertByExtension. rewrite Hp. simpl. intros Hev.
      apply app_inv_head in Hev. subst conv.
      right. left. split; [exact Hp|now left]. }
  match goal with |- context [if ?b then _ else _] => destruct b end.
  { simpl. intros Hev. apply app_inv_head in Hev. subst conv.
    right. right. now left. }
  destruct (isConvertPageByPage (io_suffix E o)); intros _; left; right.
  - apply convertPages_result.
  - apply convertFullNotation_result.
Qed.

Lemma convertAsCurrent_taxonomy (w : World) (writer : Writer) (p : Project)
    (o : path_t) (uri : UriQuery) :
  let c := convertAsCurrent E w writer p o uri in
  exists added,
    events (snd c) = events w ++ added /\
    (In (fst c) (make_ret E NotSupported :: writingResults E)
     \/ (success (fst c) = false /\ In (EvPerform uri (fst c)) added)
     \/ In (EvSave p o (fst c)) added).
Proof.
  intros c. subst c. unfold convertAsCurrent.
  destruct (dispatch_taxonomy (setCurrentProject (Some p) w) writer p o uri)
    as [conv [Hev Hcases]].
  destruct (dispatch E (setCurrentProject (Some p) w) writer p o uri) as [r w1].
  simpl in *.
  exists (EvSetCurrentProject (Some p) :: conv ++ [EvSetCurrentProject None]).
  split.
  - rewrite Hev, <- !app_assoc. reflexivity.
  - destruct Hcases as [H | [[Hs H] | H]].
    + left. exact H.
    + right. left. split; [exact Hs|]. right. apply in_or_app. now left.
    + right. right. right. apply in_or_app. now left.
Qed.

End Taxonomy.

(** X14. The results of a conversion.  What [fileConvert] returns is one
    of its own results [ConvertTypeUnknown], [UnknownError],
    [InFileFailedLoad], [NotSupported], [OutFileFailedOpen],
    [OutFileFailedWrite] and success, or else the result of a collaborator
    handed on as it is: the failure of the transposition, the failure of the
    extension, or what the project's own save answered.  The errors of the
    loader, of the file layer and of the writers are never handed on. *)
Theorem fileConvert_result_taxonomy
    (E : Env) (w : World) (i o stylePath : path_t) (forceMode : bool)
    (soundProfile : string) (uri : UriQuery) (t : option TransposeOptions) :
  let result := fileConvert E w i o stylePath forceMode soundProfile uri t in
  exists added,
    events (snd result) = events w ++ added /\
    (In (fst result)
        (map (make_ret E) [ConvertTypeUnknown; UnknownError; InFileFailedLoad;
                           NotSupported]
         ++ writingResults E)
     \/ (success (fst result) = false /\
         exists p topts, t = Some topts /\
                         In (EvApplyTranspose p topts (fst result)) added)
     \/ (success (fst result) = false /\ In (EvPerform uri (fst result)) added)
     \/ (exists p, In (EvSave p o (fst result)) added)).
Proof.
  intros result. subst result. unfold fileConvert.
  set (w1 := emit (EvLogInfo i o) w).
  destruct (writers_writer E w1 (io_suffix E o)) as [writer|].
  2:{ eexists. split; [simpl; rewrite <- !app_assoc; reflexivity|].
      left. simpl. tauto. }
  set (w2 := emit (EvWriterLookup (io_suffix E o) (Some writer)) w1).
  destruct (newProject E w2) as [p|].
  2:{ eexists. split; [simpl; rewrite <- !app_assoc; reflexivity|].
      left. simpl. tauto. }
  set (w3 := emit (EvNewProject (Some p)) w2).
  set (rl := load E w3 p i stylePath forceMode).
  set (w4 := emit (EvLoad p i stylePath forceMode rl) w3).
  destruct (success rl); simpl negb; cbv iota.
  2:{ eexists. split; [simpl; rewrite <- !app_assoc; reflexivity|].
      left. simpl. tauto. }
  set (w5 := if String.eqb soundProfile "" then w4
             else emit (EvSetActiveSoundProfile p soundProfile)
                       (emit (EvClearTrackInputParams p) w4)).
  assert (H5 : exists pre, events w5 = events w ++ pre).
  { subst w5. destruct (String.eqb soundProfile "");
      eexists; simpl; rewrite <- !app_assoc; reflexivity. }
  destruct H5 as [pre Hev5]. clearbody w5.
  assert (Hrest : forall w6 pre6,
            events w6 = events w ++ pre6 ->
            let c := convertAsCurrent E w6 writer p o uri in
            exists added,
              events (snd c) = events w ++ added /\
              (In (fst c)
                  (map (make_ret E) [ConvertTypeUnknown; UnknownError;
                                     InFileFailedLoad; NotSupported]
                   ++ writingResults E)
               \/ (success (fst c) = false /\
                   exists p0 topts, t = Some topts /\
                                    In (EvApplyTranspose p0 topts (fst c)) added)
               \/ (success (fst c) = false /\ In (EvPerform uri (fst c)) added)
               \/ (exists p0, In (EvSave p0 o (fst c)) added))).
  { intros w6 pre6 Hev6 c. subst c.
    destruct (convertAsCurrent_taxonomy E w6 writer p o uri)
      as [added [Hev Hcases]].
    exists (pre6 ++ added). split.
    - now rewrite Hev, Hev6, <- app_assoc.
    - destruct Hcases as [H | [[Hs H] | H]].
      + left. simpl in H |- *. tauto.
      + right. right. left. split; [exact Hs|]. apply in_or_app. now right.
      + right. right. right. exists p. apply in_or_app. now right. }
  destruct t as [topts|].
  - set (rt := applyTranspose E w5 p topts).
    destruct (success rt) eqn:Ht; simpl negb; cbv iota.
    + apply (Hrest _ (pre ++ [EvApplyTranspose p topts rt])).
      simpl. now rewrite Hev5, <- app_assoc.
    + exists (pre ++ [EvApplyTranspose p topts rt]). split.
      * simpl. now rewrite Hev5, <- app_assoc.
      * right. left. split; [exact Ht|]. exists p, topts.
        split; [reflexivity|]. apply in_or_app. right. now left.
  - now apply (Hrest _ pre).
Qed.

(** ** The conversion with the transposition as text *)

(** X15. When the registry has no writer for the suffix of the output, the
    conversion that takes the transposition as JSON text never creates or
    loads a project either: a text that is not empty and does not parse
    returns its own error with nothing done at all, and in every other case
    the result is [ConvertTypeUnknown] after the log line and the registry
    lookup. *)
Theorem fileConvertJson_unknown_type
    (E : Env) (w : World) (i o stylePath : path_t) (forceMode : bool)
    (soundProfile : string) (uri : UriQuery) (json : string) :
  writers_writer E (emit (EvLogInfo i o) w) (io_suffix E o) = None ->
  let result := fileConvertJson E w i o stylePath forceMode soundProfile uri json in
  (json <> "" /\
   success (ret (parseTransposeOptionsJson E json)) = false /\
   result = (ret (parseTransposeOptionsJson E json), w))
  \/
  ((json = "" \/ success (ret (parseTransposeOptionsJson E json)) = true) /\
   fst result = make_ret E ConvertTypeUnknown /\
   events (snd result) =
     events w ++ [EvLogInfo i o; EvWriterLookup (io_suffix E o) None] /\
   currentProject (snd result) = currentProject w).
Proof.
  intros H result. subst result. unfold fileConvertJson.
  destruct (String.eqb_spec json "") as [Hj|Hj].
  - right. unfold fileConvert. rewrite H. simpl. rewrite <- app_assoc.
    repeat split; auto.
  - destruct (success (ret (parseTransposeOptionsJson E json))) eqn:Hs;
      simpl negb; cbv iota.
    + right. unfold fileConvert. rewrite H. simpl. rewrite <- app_assoc.
      repeat split; auto.
    + left. repeat split; auto.
Qed.

Lemma fileConvertJson_unknown_type_witness :
  fst (fileConvertJson Sample.envThree Sample.world0 "a.mscz" "a.xyz" "" false
                       "" "" "{}") = make_ret Sample.envThree ConvertTypeUnknown /\
  events (snd (fileConvertJson Sample.envThree Sample.world0 "a.mscz" "a.xyz" ""
                               false "" "" "{}")) =
    [EvLogInfo "a.mscz" "a.xyz"; EvWriterLookup "xyz" None].
Proof.
  destruct (fileConvertJson_unknown_type Sample.envThree Sample.world0 "a.mscz"
              "a.xyz" "" false "" "" "{}" eq_refl)
    as [[_ [Hs _]] | [_ [Hr [He _]]]].
  - discriminate Hs.
  - split; [exact Hr|exact He].
Defined.

(** ** The sound profile *)

Lemma soundOf_none (P : Event -> bool) (evs : list Event) :
  (forall e, P e = true -> soundEvent e = false) ->
  forallb P evs = true -> filter soundEvent evs = [].
Proof.
  intros HP. induction evs as [|e evs IH]; simpl; [reflexivity|].
  intros H. apply andb_true_iff in H as [He H].
  rewrite (HP e He). now apply IH.
Qed.

Lemma convertAsCurrent_no_sound (E : Env) (w : World) (writer : Writer)
    (p : Project) (o : path_t) (uri : UriQuery) :
  exists post,
    events (snd (convertAsCurrent E w writer p o uri)) = events w ++ post /\
    filter soundEvent post = [].
Proof.
  destruct (convertAsCurrent_shape E w writer p o uri) as [conv [Hev [Hc _]]].
  exists (EvSetCurrentProject (Some p) :: conv ++ [EvSetCurrentProject None]).
  split; [exact Hev|].
  simpl. rewrite filter_app. simpl.
  rewrite (soundOf_none conversionEvent conv); [reflexivity| |exact Hc].
  intros e; now destruct e.
Qed.

(** X16. The sound profile is applied exactly when it is not empty and the
    input has loaded.  Then, right after the load, the input parameters of
    the tracks are cleared and the profile is made the active one, once,
    before any transposition or conversion; with an empty profile, or when
    the conversion ends before or at the load, the audio settings are not
    touched. *)
Theorem fileConvert_sound_profile
    (E : Env) (w : World) (i o stylePath : path_t) (forceMode : bool)
    (soundProfile : string) (uri : UriQuery) (t : option TransposeOptions) :
  let result := fileConvert E w i o stylePath forceMode soundProfile uri t in
  exists added,
    events (snd result) = events w ++ added /\
    ((filter soundEvent added = [] /\
      (soundProfile = "" \/
       forall p rl, In (EvLoad p i stylePath forceMode rl) added ->
                    success rl = false))
     \/
     (soundProfile <> "" /\
      exists p rl pre post,
        added = pre ++ EvLoad p i stylePath forceMode rl
                    :: EvClearTrackInputParams p
                    :: EvSetActiveSoundProfile p soundProfile :: post /\
        success rl = true /\
        filter soundEvent pre = [] /\
        filter soundEvent post = [])).
Proof.
  intros result. subst result. unfold fileConvert.
  set (w1 := emit (EvLogInfo i o) w).
  destruct (writers_writer E w1 (io_suffix E o)) as [writer|].
  2:{ eexists. split; [simpl; rewrite <- !app_assoc; reflexivity|].
      left. split; [reflexivity|]. right. intros p rl [H | [H | []]]; discriminate. }
  set (w2 := emit (EvWriterLookup (io_suffix E o) (Some writer)) w1).
  destruct (newProject E w2) as [p|].
  2:{ eexists. split; [simpl; rewrite <- !app_assoc; reflexivity|].
      left. split; [reflexivity|]. right.
      intros p rl [H | [H | [H | []]]]; discriminate. }
  set (w3 := emit (EvNewProject (Some p)) w2).
  set (rl := load E w3 p i stylePath forceMode).
  set (w4 := emit (EvLoad p i stylePath forceMode rl) w3).
  destruct (success rl) eqn:Hl; simpl negb; cbv iota.
  2:{ eexists. split; [simpl; rewrite <- !app_assoc; reflexivity|].
      left. split; [reflexivity|]. right.
      intros p' rl' [H | [H | [H | [H | []]]]]; try discriminate.
      injection H as _ <-. exact Hl. }
  assert (Hev4 : events w4 =
                 events w ++ [EvLogInfo i o;
                              EvWriterLookup (io_suffix E o) (Some writer);
                              EvNewProject (Some p);
                              EvLoad p i stylePath forceMode rl]).
  { subst w4 w3 w2 w1. simpl. rewrite <- !app_assoc. reflexivity. }
  clearbody w4.
  assert (Htail : forall w5,
            exists post,
              events (snd (match t with
                           | Some t0 =>
                               if negb (success (applyTranspose E w5 p t0))
                               then (applyTranspose E w5 p t0,
                                     emit (EvApplyTranspose p t0
                                             (applyTranspose E w5 p t0)) w5)
                               else convertAsCurrent E
                                      (emit (EvApplyTranspose p t0
                                               (applyTranspose E w5 p t0)) w5)
                                      writer p o uri
                           | None => convertAsCurrent E w5 writer p o uri
                           end)) = events w5 ++ post /\
              filter soundEvent post = []).
  { intros w5. destruct t as [t0|].
    - destruct (success (applyTranspose E w5 p t0)); simpl negb; cbv iota.
      + destruct (convertAsCurrent_no_sound E
                    (emit (EvApplyTranspose p t0 (applyTranspose E w5 p t0)) w5)
                    writer p o uri) as [post [Hev Hpost]].
        exists (EvApplyTranspose p t0 (applyTranspose E w5 p t0) :: post).
        split; [|simpl; exact Hpost].
        rewrite Hev. simpl. rewrite <- app_assoc. reflexivity.
      + exists [EvApplyTranspose p t0 (applyTranspose E w5 p t0)].
        split; reflexivity.
    - apply convertAsCurrent_no_sound. }
  destruct (String.eqb_spec soundProfile "") as [Hsp|Hsp].
  - destruct (Htail w4) as [post [Hev Hpost]].
    exists ([EvLogInfo i o; EvWriterLookup (io_suffix E o) (Some writer);
             EvNewProject (Some p); EvLoad p i stylePath forceMode rl] ++ post).
    split.
    + rewrite Hev, Hev4, <- app_assoc. reflexivity.
    + left. split; [simpl; exact Hpost|now left].
  - destruct (Htail (emit (EvSetActiveSoundProfile p soundProfile)
                          (emit (EvClearTrackInputParams p) w4)))
      as [post [Hev Hpost]].
    exists ([EvLogInfo i o; EvWriterLookup (io_suffix E o) (Some writer);
             EvNewProject (Some p); EvLoad p i stylePath forceMode rl;
             EvClearTrackInputParams p; EvSetActiveSoundProfile p soundProfile]
            ++ post).
    split.
    + rewrite Hev. simpl. rewrite Hev4, <- !app_assoc. reflexivity.
    + right. split; [exact Hsp|].
      exists p, rl, [EvLogInfo i o; EvWriterLookup (io_suffix E o) (Some writer);
                     EvNewProject (Some p)], post.
      repeat split; auto.
Qed.

(** * The single job and the batch, step by step *)

(** ** Occurrences *)




(** ** From the entry of [fileConvert] to the conversion proper *)

Section Preparation.

Variable E : Env.
Variables (w : World) (i o stylePath : path_t) (forceMode : bool)
          (soundProfile : string) (uri : UriQuery) (t : option TransposeOptions).

(** When every step before it succeeds, [fileConvert] is the conversion of
    the loaded project as the current one. *)
Lemma fileConvert_prepared (writer : Writer) (p : Project) :
  prepares E w i o stylePath forceMode soundProfile t writer p ->
  fileConvert E w i o stylePath forceMode soundProfile uri t =
    convertAsCurrent E
      (transposed E w i o stylePath forceMode soundProfile t writer p)
      writer p o uri.
Proof.
  unfold prepares, transposed, profiled, loaded, created, lookedUp, logged.
  intros [Hw [Hp [Hl Ht]]]. unfold fileConvert.
  rewrite Hw, Hp, Hl. simpl negb. cbv iota.
  destruct t as [t0|]; [|reflexivity].
  rewrite (Ht t0 eq_refl). reflexivity.
Qed.

(** When some step before it fails, [fileConvert] fails without having
    touched the current project. *)
Lemma fileConvert_unprepared :
  (forall writer p,
     ~ prepares E w i o stylePath forceMode soundProfile t writer p) ->
  let result := fileConvert E w i o stylePath forceMode soundProfile uri t in
  exists prep,
    forallb preparationEvent prep = true /\
    events (snd result) = events w ++ EvLogInfo i o :: prep /\
    currentProject (snd result) = currentProject w /\
    success (fst result) = false.
Proof.
  intros Hnot result. subst result. unfold fileConvert.
  destruct (writers_writer E (emit (EvLogInfo i o) w) (io_suffix E o))
    as [writer|] eqn:Hw.
  2:{ exists [EvWriterLookup (io_suffix E o) None]. simpl.
      rewrite <- app_assoc. now repeat split. }
  destruct (newProject E (emit (EvWriterLookup (io_suffix E o) (Some writer))
                               (emit (EvLogInfo i o) w))) as [p|] eqn:Hp.
  2:{ exists [EvWriterLookup (io_suffix E o) (Some writer); EvNewProject None].
      simpl. rewrite <- !app_assoc. now repeat split. }
  set (w3 := emit (EvNewProject (Some p))
               (emit (EvWriterLookup (io_suffix E o) (Some writer))
                     (emit (EvLogInfo i o) w))) in *.
  destruct (success (load E w3 p i stylePath forceMode)) eqn:Hl;
    simpl negb; cbv iota.
  2:{ exists [EvWriterLookup (io_suffix E o) (Some writer); EvNewProject (Some p);
              EvLoad p i stylePath forceMode (load E w3 p i stylePath forceMode)].
      simpl. rewrite <- !app_assoc. now repeat split. }
  destruct t as [t0|].
  - match goal with
    | |- context [applyTranspose E ?w5 p t0] =>
        destruct (success (applyTranspose E w5 p t0)) eqn:Ht
    end; simpl negb; cbv iota.
    + exfalso. apply (Hnot writer p).
      unfold prepares, profiled, loaded, created, lookedUp, logged.
      fold w3. repeat split; auto.
      intros t1 Heq. injection Heq as <-. exact Ht.
    + destruct (String.eqb soundProfile "").
      * exists [EvWriterLookup (io_suffix E o) (Some writer);
                EvNewProject (Some p);
                EvLoad p i stylePath forceMode (load E w3 p i stylePath forceMode);
                EvApplyTranspose p t0
                  (applyTranspose E
                     (emit (EvLoad p i stylePath forceMode
                                   (load E w3 p i stylePath forceMode)) w3) p t0)].
        simpl. rewrite <- !app_assoc. now repeat split.
      * exists [EvWriterLookup (io_suffix E o) (Some writer);
                EvNewProject (Some p);
                EvLoad p i stylePath forceMode (load E w3 p i stylePath forceMode);
                EvClearTrackInputParams p;
                EvSetActiveSoundProfile p soundProfile;
                EvApplyTranspose p t0
                  (applyTranspose E
                     (emit (EvSetActiveSoundProfile p soundProfile)
                        (emit (EvClearTrackInputParams p)
                           (emit (EvLoad p i stylePath forceMode
                                         (load E w3 p i stylePath forceMode)) w3)))
                     p t0)].
        simpl. rewrite <- !app_assoc. now repeat split.
  - exfalso. apply (Hnot writer p).
    unfold prepares, profiled, loaded, created, lookedUp, logged.
    fold w3. repeat split; auto. intros t1 Heq. discriminate.
Qed.

End Preparation.

Lemma transposed_events (E : Env) (w : World) (i o stylePath : path_t)
    (forceMode : bool) (soundProfile : string) (t : option TransposeOptions)
    (writer : Writer) (p : Project) :
  exists prep,
    forallb preparationEvent prep = true /\
    In (EvLoad p i stylePath forceMode
               (load E (created E w i o writer p) p i stylePath forceMode)) prep /\
    events (transposed E w i o stylePath forceMode soundProfile t writer p) =
      events w ++ EvLogInfo i o :: prep /\
    currentProject (transposed E w i o stylePath forceMode soundProfile t writer p) =
      currentProject w.
Proof.
  unfold transposed, profiled, loaded.
  set (rl := load E (created E w i o writer p) p i stylePath forceMode).
  unfold created, lookedUp, logged.
  destruct (String.eqb soundProfile ""); destruct t as [t0|].
  - eexists [_; _; _; _]. simpl. rewrite <- !app_assoc. simpl.
    repeat split; auto.
  - eexists [_; _; _]. simpl. rewrite <- !app_assoc. simpl.
    repeat split; auto.
  - eexists [_; _; _; _; _; _]. simpl. rewrite <- !app_assoc. simpl.
    repeat split; auto.
  - eexists [_; _; _; _; _]. simpl. rewrite <- !app_assoc. simpl.
    repeat split; auto.
Qed.

(** C5. When the registry has a writer, the project is created, the input
    loads and the transposition, if any, is applied, [fileConvert] makes the
    loaded project the current one, runs the dispatch in that world, returns
    what the dispatch returned, whatever it is, and clears the current
    project: the events of the conversion lie between the two settings of
    the current project.  When one of these steps fails, [fileConvert]
    fails before any conversion event and leaves the current project as it
    was. *)
Theorem fileConvert_scopes_current_project
    (E : Env) (w : World) (i o stylePath : path_t) (forceMode : bool)
    (soundProfile : string) (uri : UriQuery) (t : option TransposeOptions) :
  let result := fileConvert E w i o stylePath forceMode soundProfile uri t in
  (forall writer p,
     prepares E w i o stylePath forceMode soundProfile t writer p ->
     let w0 := transposed E w i o stylePath forceMode soundProfile t writer p in
     let registered := setCurrentProject (Some p) w0 in
     let converted := dispatch E registered writer p o uri in
     (exists prep,
        forallb preparationEvent prep = true /\
        In (EvLoad p i stylePath forceMode
                   (load E (created E w i o writer p) p i stylePath forceMode))
           prep /\
        events w0 = events w ++ EvLogInfo i o :: prep) /\
     currentProject registered = Some p /\
     fst result = fst converted /\
     snd result = setCurrentProject None (snd converted) /\
     (exists conv,
        forallb conversionEvent conv = true /\
        events (snd converted) = events w0 ++ EvSetCurrentProject (Some p) :: conv /\
        events (snd result) =
          events w0 ++ EvSetCurrentProject (Some p) :: conv
            ++ [EvSetCurrentProject None]) /\
     currentProject (snd converted) = Some p /\
     currentProject (snd result) = None)
  /\
  ((forall writer p,
      ~ prepares E w i o stylePath forceMode soundProfile t writer p) ->
   exists prep,
     forallb preparationEvent prep = true /\
     events (snd result) = events w ++ EvLogInfo i o :: prep /\
     currentProject (snd result) = currentProject w /\
     success (fst result) = false).
Proof.
  intros result. split.
  - intros writer p Hprep w0 registered converted.
    destruct (transposed_events E w i o stylePath forceMode soundProfile t writer p)
      as [prep [Hp [Hin [Hev0 _]]]].
    split; [exists prep; now repeat split|].
    split; [reflexivity|].
    subst result.
    rewrite (fileConvert_prepared E w i o stylePath forceMode soundProfile uri t
               writer p Hprep).
    unfold convertAsCurrent. fold w0. fold registered. fold converted.
    destruct (dispatch_grows E registered writer p o uri) as [conv [Hev [Hconv Hcur]]].
    fold converted in Hev, Hcur.
    destruct converted as [r w1]. simpl in *.
    split; [reflexivity|]. split; [reflexivity|].
    split; [|split; [exact Hcur|reflexivity]].
    exists conv. split; [exact Hconv|]. split.
    + rewrite Hev, <- app_assoc. reflexivity.
    + rewrite Hev, <- !app_assoc. reflexivity.
  - apply fileConvert_unprepared.
Qed.

Lemma fileConvert_scopes_current_project_witness :
  currentProject (snd (fileConvert Sample.envThree (mkWorld [] (Some 9))
                         "a.mscz" "parts/*.svg" "" false "" "" None)) = None /\
  fst (fileConvert Sample.envThree (mkWorld [] (Some 9))
                   "a.mscz" "parts/*.svg" "" false "" "" None) =
    make_ret Sample.envThree NotSupported /\
  currentProject (snd (fileConvert Sample.envThree (mkWorld [] (Some 9))
                         "a.mscz" "a.xyz" "" false "" "" None)) = Some 9.
Proof.
  destruct (fileConvert_scopes_current_project Sample.envThree (mkWorld [] (Some 9))
              "a.mscz" "parts/*.svg" "" false "" "" None) as [H1 _].
  destruct (fileConvert_scopes_current_project Sample.envThree (mkWorld [] (Some 9))
              "a.mscz" "a.xyz" "" false "" "" None) as [_ H2].
  destruct (H1 3 0) as [_ [_ [Hr [_ [_ [_ Hc]]]]]].
  { repeat split; try reflexivity; intros t0 Ht; discriminate Ht. }
  destruct H2 as [prep [_ [_ [Hc2 _]]]].
  { intros writer p [Hw _]. discriminate Hw. }
  split; [exact Hc|]. split; [exact Hr|exact Hc2].
Defined.

(** ** What each way to convert does *)

Section OutcomeLemmas.

Variable E : Env.

Lemma convertPages_trace (writer : Writer) (n : Notation) (o : path_t)
    (remaining start : nat) (w : World) :
  let result := convertPages E remaining start w writer n o in
  exists (rets : list Ret) (tail : list Event),
    forallb success rets = true /\
    length rets <= remaining /\
    events (snd result) =
      events w
      ++ flat_map (pageFileEvents E writer n o)
                  (combine (seq start (length rets)) rets)
      ++ tail /\
    ((length rets = remaining /\ tail = [] /\ fst result = make_ret E Ok)
     \/
     (length rets < remaining /\
      tail = [EvOpen (pageFilePath E o (start + length rets)) false] /\
      fst result = make_ret E OutFileFailedOpen)
     \/
     (length rets < remaining /\
      exists rw,
        success rw = false /\
        tail =
          [EvOpen (pageFilePath E o (start + length rets)) true;
           EvSetMeta (pageFilePath E o (start + length rets)) "dir_path" o;
           EvSetMeta (pageFilePath E o (start + length rets)) "file_path"
                     (pageFilePath E o (start + length rets));
           EvWrite writer n (pageFilePath E o (start + length rets))
                   [(PAGE_NUMBER, VInt (static_cast_int (start + length rets)))]
                   rw] /\
        fst result = make_ret E OutFileFailedWrite)).
Proof.
  revert start w. induction remaining as [|k IH]; intros start w result;
    subst result.
  - exists [], []. simpl. rewrite app_nil_r. repeat split; auto.
  - simpl convertPages.
    set (f := pageFilePath E o start).
    unfold openFile.
    destruct (file_open E w f) eqn:Hopen; simpl negb; cbv iota.
    2:{ exists [], [EvOpen f false]. simpl. rewrite Nat.add_0_r.
        repeat split; auto; try lia.
        right. left. repeat split; auto; lia. }
    unfold writeFile.
    set (w1 := emit (EvSetMeta f "file_path" f)
                 (emit (EvSetMeta f "dir_path" o) (emit (EvOpen f true) w))).
    set (r := write E w1 writer n f [(PAGE_NUMBER, VInt (static_cast_int start))]).
    destruct (success r) eqn:Hr; simpl negb; cbv iota.
    2:{ exists [], [EvOpen f true; EvSetMeta f "dir_path" o; EvSetMeta f "file_path" f;
                    EvWrite writer n f
                            [(PAGE_NUMBER, VInt (static_cast_int start))] r].
        simpl. rewrite Nat.add_0_r. fold f.
        repeat split; auto; try lia.
        - rewrite <- !app_assoc. reflexivity.
        - right. right. split; [lia|]. exists r. now repeat split. }
    set (w2 := emit (EvClose f)
                 (emit (EvWrite writer n f
                                [(PAGE_NUMBER, VInt (static_cast_int start))] r) w1)).
    destruct (IH (S start) w2) as [rets [tail [Hall [Hlen [Hev Hcases]]]]].
    exists (r :: rets), tail.
    split; [simpl; now rewrite Hr, Hall|].
    split; [simpl; lia|].
    split.
    { rewrite Hev. subst w2 w1. simpl. fold f. rewrite <- !app_assoc. reflexivity. }
    simpl length. rewrite <- Nat.add_succ_comm.
    destruct Hcases as [[H1 [H2 H3]] | [[H1 [H2 H3]] | [H1 [r' [H2 [H3 H4]]]]]].
    + left. repeat split; auto.
    + right. left. repeat split; auto. lia.
    + right. right. split; [lia|]. exists r'. now repeat split.
Qed.

Lemma convertPageByPage_outcome (w : World) (writer : Writer) (n : Notation)
    (o : path_t) :
  exists added,
    events (snd (convertPageByPage E w writer n o)) = events w ++ added /\
    pagesOutcome E writer n o (fst (convertPageByPage E w writer n o)) added.
Proof.
  unfold convertPageByPage.
  destruct (convertPages_trace writer n o (pages n) 0 w)
    as [rets [tail [Hall [Hlen [Hev Hcases]]]]].
  simpl Nat.add in Hcases.
  exists (flat_map (pageFileEvents E writer n o) (combine (seq 0 (length rets)) rets)
          ++ tail).
  split; [exact Hev|].
  exists rets, tail. repeat split; assumption.
Qed.

Lemma openedFiles_pageFiles (writer : Writer) (n : Notation) (o : path_t)
    (rets : list Ret) (start : nat) :
  openedFiles (flat_map (pageFileEvents E writer n o)
                        (combine (seq start (length rets)) rets)) =
    map (pageFilePath E o) (seq start (length rets)).
Proof.
  revert start. induction rets as [|r rets IH]; intros start; [reflexivity|].
  simpl length. simpl seq. simpl combine.
  change (flat_map (pageFileEvents E writer n o)
                   ((start, r) :: combine (seq (S start) (length rets)) rets))
    with (pageFileEvents E writer n o (start, r)
          ++ flat_map (pageFileEvents E writer n o)
                      (combine (seq (S start) (length rets)) rets)).
  rewrite openedFiles_app, IH. reflexivity.
Qed.

(** A page-by-page conversion that succeeds has opened one file per page. *)
Lemma pagesOutcome_opened (writer : Writer) (n : Notation) (o : path_t)
    (r : Ret) (added : list Event) :
  pagesOutcome E writer n o r added ->
  success r = true ->
  openedFiles added = map (pageFilePath E o) (seq 0 (pages n)).
Proof.
  intros [rets [tail [_ [_ [Hadd Hcases]]]]] Hok. subst added.
  rewrite openedFiles_app, openedFiles_pageFiles.
  destruct Hcases as [[H1 [H2 _]] | [[_ [_ H3]] | [_ [rw [_ [_ H4]]]]]].
  - rewrite H1, H2. simpl. now rewrite app_nil_r.
  - rewrite H3 in Hok. discriminate.
  - rewrite H4 in Hok. discriminate.
Qed.



Lemma afterPngParts_app (a b : list Notation) (w : World) (writer : Writer)
    (o : path_t) :
  afterPngParts E (a ++ b) w writer o =
    afterPngParts E b (afterPngParts E a w writer o) writer o.
Proof.
  revert w. induction a as [|n a IH]; intros w; [reflexivity|].
  simpl. apply IH.
Qed.

(** The png export of parts that succeeds has opened, part after part, one
    file per page. *)
Lemma convertPartsToPngs_files_opened (writer : Writer) (o : path_t)
    (ns : list Notation) (w : World) :
  success (fst (convertPartsToPngs E ns w writer o)) = true ->
  openedFiles (events (snd (convertPartsToPngs E ns w writer o))) =
    openedFiles (events w)
    ++ flat_map (fun n => map (pageFilePath E (partOutPath E o (name n) ".png"))
                              (seq 0 (pages n))) ns.
Proof.
  revert w. induction ns as [|n ns IH]; intros w Hok.
  - simpl. now rewrite app_nil_r.
  - simpl convertPartsToPngs in *.
    set (po := partOutPath E o (name n) ".png") in *.
    destruct (convertPageByPage_outcome w writer n po) as [added [Hev Hout]].
    destruct (convertPageByPage E w writer n po) as [r w1].
    simpl fst in *. simpl snd in *.
    destruct (success r) eqn:Hr; simpl negb in *; cbv iota in *.
    + rewrite (IH w1 Hok), Hev, openedFiles_app.
      rewrite (pagesOutcome_opened writer n po r added Hout Hr).
      simpl flat_map. now rewrite <- app_assoc.
    + simpl in Hok. rewrite Hr in Hok. discriminate.
Qed.



End OutcomeLemmas.




(** ** The pages *)




(** ** The parts as png, part by part *)

Lemma convertPartsToPngs_first_failure (E : Env) (writer : Writer) (o : path_t)
    (ns : list Notation) (w : World) :
  exists k,
    k <= length ns /\
    (forall j n,
       j < k -> nth_error ns j = Some n ->
       success (fst (convertPageByPage E
                       (afterPngParts E (firstn j ns) w writer o) writer n
                       (partOutPath E o (name n) ".png"))) = true) /\
    ((k = length ns /\
      convertPartsToPngs E ns w writer o =
        (make_ret E Ok, afterPngParts E (firstn k ns) w writer o))
     \/
     (exists n,
        nth_error ns k = Some n /\
        success (fst (convertPageByPage E
                        (afterPngParts E (firstn k ns) w writer o) writer n
                        (partOutPath E o (name n) ".png"))) = false /\
        convertPartsToPngs E ns w writer o =
          convertPageByPage E (afterPngParts E (firstn k ns) w writer o) writer n
                            (partOutPath E o (name n) ".png"))).
Proof.
  revert w. induction ns as [|n ns IH]; intros w.
  - exists 0. split; [simpl; lia|]. split; [intros j n Hj; lia|].
    left. now split.
  - simpl convertPartsToPngs.
    destruct (convertPageByPage E w writer n (partOutPath E o (name n) ".png"))
      as [r w1] eqn:Hc.
    destruct (success r) eqn:Hr; simpl negb; cbv iota.
    + destruct (IH w1) as [k [Hk [Hbefore Hcases]]].
      exists (S k). split; [simpl; lia|].
      assert (Hw1 : forall l, afterPngParts E (n :: l) w writer o =
                              afterPngParts E l w1 writer o).
      { intros l. simpl. now rewrite Hc. }
      split.
      * intros j n' Hj Hn'. destruct j as [|j].
        -- simpl in Hn'. injection Hn' as <-. simpl. now rewrite Hc.
        -- simpl firstn. rewrite Hw1. apply Hbefore; [lia|exact Hn'].
      * simpl firstn. rewrite Hw1. simpl nth_error.
        destruct Hcases as [[H1 H2] | [n' [H1 [H2 H3]]]].
        -- left. split; [simpl; now rewrite H1|exact H2].
        -- right. exists n'. now repeat split.
    + exists 0. split; [simpl; lia|]. split; [intros j n' Hj; lia|].
      right. exists n. simpl. rewrite Hc. now repeat split.
Qed.

(** X8. The png export of the parts converts the excerpts in their order,
    each page by page under the part's own path, every part in the world
    the parts before it left.  It stops at the first part whose conversion
    fails and returns the result and the world of that conversion as they
    are; when no part fails it returns success.  Its result is success,
    [OutFileFailedOpen] or [OutFileFailedWrite]; and when it succeeds, the
    files opened are, part after part, the pages of the part in order, named
    like the pages of a score with that path. *)
Theorem convertScorePartsToPngs_pages
    (E : Env) (w : World) (writer : Writer) (m : MasterNotation) (o : path_t) :
  let result := convertScorePartsToPngs E w writer m o in
  let ns := excerpts m in
  (exists k,
     k <= length ns /\
     (forall j n,
        j < k -> nth_error ns j = Some n ->
        success (fst (convertPageByPage E
                        (afterPngParts E (firstn j ns) w writer o) writer n
                        (partOutPath E o (name n) ".png"))) = true) /\
     ((k = length ns /\
       result = (make_ret E Ok, afterPngParts E (firstn k ns) w writer o))
      \/
      (exists n,
         nth_error ns k = Some n /\
         success (fst (convertPageByPage E
                         (afterPngParts E (firstn k ns) w writer o) writer n
                         (partOutPath E o (name n) ".png"))) = false /\
         result =
           convertPageByPage E (afterPngParts E (firstn k ns) w writer o)
                             writer n (partOutPath E o (name n) ".png")))) /\
  In (fst result) (writingResults E) /\
  (success (fst result) = true ->
   openedFiles (events (snd result)) =
     openedFiles (events w)
     ++ flat_map (fun n => map (pageFilePath E (partOutPath E o (name n) ".png"))
                               (seq 0 (pages n))) ns).
Proof.
  intros result ns. subst result ns. unfold convertScorePartsToPngs.
  split; [apply convertPartsToPngs_first_failure|].
  split; [apply convertPartsToPngs_result|].
  apply convertPartsToPngs_files_opened.
Qed.

Lemma convertScorePartsToPngs_pages_witness :
  openedFiles (events (snd (convertScorePartsToPngs Sample.envThree Sample.world0
                              2 Sample.score "parts/*.png"))) =
    ["parts/Violin-1.png"; "parts/Cello-1.png"].
Proof.
  destruct (convertScorePartsToPngs_pages Sample.envThree Sample.world0 2
              Sample.score "parts/*.png") as [_ [_ H]].
  exact (H eq_refl).
Defined.

(** ** The current project across a batch *)

Lemma filter_none (P Q : Event -> bool) (evs : list Event) :
  (forall e, P e = true -> Q e = false) ->
  forallb P evs = true -> filter Q evs = [].
Proof.
  intros HP. induction evs as [|e evs IH]; simpl; [reflexivity|].
  intros H. apply andb_true_iff in H as [He H].
  rewrite (HP e He). now apply IH.
Qed.

(** A conversion either registers no project, and then it fails without
    any conversion event, or it registers one project and clears it. *)
Lemma fileConvert_registration (E : Env) (w : World) (i o stylePath : path_t)
    (forceMode : bool) (soundProfile : string) (uri : UriQuery)
    (t : option TransposeOptions) :
  let result := fileConvert E w i o stylePath forceMode soundProfile uri t in
  exists added,
    events (snd result) = events w ++ added /\
    ((filter currentEvent added = [] /\
      filter conversionEvent added = [] /\
      currentProject (snd result) = currentProject w /\
      success (fst result) = false)
     \/
     (exists p,
        filter currentEvent added = registration p /\
        currentProject (snd result) = None)).
Proof.
  intros result. subst result.
  assert (Hpc : forall evs, forallb preparationEvent evs = true ->
                            filter currentEvent evs = []).
  { intros evs. apply filter_none. intros e; now destruct e. }
  assert (Hpv : forall evs, forallb preparationEvent evs = true ->
                            filter conversionEvent evs = []).
  { intros evs. apply filter_none. intros e; now destruct e. }
  assert (Hcc : forall evs, forallb conversionEvent evs = true ->
                            filter currentEvent evs = []).
  { intros evs. apply filter_none. intros e; now destruct e. }
  destruct (fileConvert_shape E w i o stylePath forceMode soundProfile uri t)
    as [prep [Hp [[Hev [Hc Hs]] | [p [writer [w0 [rl [Hev0 [_ [_ Heq]]]]]]]]]].
  - exists (EvLogInfo i o :: prep). split; [exact Hev|]. left.
    simpl. rewrite (Hpc _ Hp), (Hpv _ Hp). now repeat split.
  - rewrite Heq.
    destruct (convertAsCurrent_shape E w0 writer p o uri) as [conv [Hev [Hconv Hc]]].
    exists (EvLogInfo i o :: prep
            ++ EvSetCurrentProject (Some p) :: conv ++ [EvSetCurrentProject None]).
    split.
    + rewrite Hev, Hev0, <- app_assoc. reflexivity.
    + right. exists p. split; [|exact Hc].
      simpl. rewrite filter_app. simpl. rewrite filter_app. simpl.
      now rewrite (Hpc _ Hp), (Hcc _ Hconv).
Qed.

Lemma convertJobs_registrations (E : Env) (total : Z) (stylePath : path_t)
    (forceMode : bool) (soundProfile : string) (uri : UriQuery)
    (progress : bool) (jobs : list Job) (current : Z) (errors : list string)
    (w : World) :
  let done := convertJobs E jobs total stylePath forceMode soundProfile uri
                          progress current errors w in
  exists added ps,
    events (snd done) = events w ++ added /\
    filter currentEvent added = flat_map registration ps /\
    currentProject (snd done) =
      match ps with [] => currentProject w | _ => None end /\
    (ps = [] -> filter conversionEvent added = []).
Proof.
  revert current errors w.
  induction jobs as [|job jobs IH]; intros current errors w done; subst done.
  - exists [], []. simpl. rewrite app_nil_r. now repeat split.
  - simpl convertJobs.
    set (current' := if progress then (current + 1)%Z else current).
    set (w1 := notify progress (EvProgress current' total (in_ job)) w).
    assert (Hw1 : exists note,
               events w1 = events w ++ note /\
               filter currentEvent note = [] /\
               filter conversionEvent note = [] /\
               currentProject w1 = currentProject w).
    { subst w1. unfold notify. destruct progress.
      - exists [EvProgress current' total (in_ job)]. now repeat split.
      - exists []. rewrite app_nil_r. now repeat split. }
    destruct Hw1 as [note [Hn1 [Hn2 [Hn3 Hn4]]]].
    destruct (fileConvert_registration E w1 (in_ job) (out job) stylePath forceMode
                soundProfile uri (transposeOptions job)) as [added [Hev Hcase]].
    destruct (fileConvert E w1 (in_ job) (out job) stylePath forceMode
                soundProfile uri (transposeOptions job)) as [r w2].
    simpl fst in *. simpl snd in *.
    set (errors' := if negb (success r) then errors ++ [errorEntry E r job]
                    else errors).
    destruct (IH current' errors' w2) as [added' [ps' [Hev' [Hf' [Hc' Hv']]]]].
    destruct Hcase as [[Hf [Hv [Hc _]]] | [p [Hf Hc]]].
    + exists (note ++ added ++ added'), ps'.
      split; [rewrite Hev', Hev, Hn1, <- !app_assoc; reflexivity|].
      split; [rewrite !filter_app, Hn2, Hf, Hf'; reflexivity|].
      split.
      * rewrite Hc'. destruct ps'; [congruence|reflexivity].
      * intros Hps. rewrite !filter_app, Hn3, Hv, (Hv' Hps). reflexivity.
    + exists (note ++ added ++ added'), (p :: ps').
      split; [rewrite Hev', Hev, Hn1, <- !app_assoc; reflexivity|].
      split; [rewrite !filter_app, Hn2, Hf, Hf'; reflexivity|].
      split.
      * rewrite Hc'. destruct ps'; [exact Hc|reflexivity].
      * intros Hps. discriminate Hps.
Qed.

(** X12. Across a batch the current project is set and cleared in pairs:
    the settings of the current project that [batchConvert] makes are, for
    some projects, one after the other, the project made current and then
    cleared.  When there is such a pair the batch ends with no current
    project; when there is none, no conversion event has happened and the
    current project is what it was before. *)
Theorem batchConvert_current_project
    (E : Env) (w : World) (f stylePath : path_t) (forceMode : bool)
    (soundProfile : string) (uri : UriQuery) (progress : bool) :
  let result := batchConvert E w f stylePath forceMode soundProfile uri progress in
  exists added ps,
    events (snd result) = events w ++ added /\
    filter currentEvent added = flat_map registration ps /\
    currentProject (snd result) =
      match ps with [] => currentProject w | _ => None end /\
    (ps = [] -> filter conversionEvent added = []).
Proof.
  intros result. subst result.
  destruct (batchConvert_unfold E w f stylePath forceMode soundProfile uri progress)
    as [Hfail Hok].
  set (w1 := notify progress EvProgressStart w) in *.
  assert (Hnote : forall e w', progressEvent e = true ->
            exists note,
              events (notify progress e w') = events w' ++ note /\
              filter currentEvent note = [] /\
              filter conversionEvent note = [] /\
              currentProject (notify progress e w') = currentProject w').
  { intros e w' He. unfold notify. destruct progress.
    - exists [e]. simpl. destruct e; try discriminate; now repeat split.
    - exists []. rewrite app_nil_r. now repeat split. }
  destruct (Hnote EvProgressStart w eq_refl) as [n1 [Hn1 [Hn1c [Hn1v Hn1p]]]].
  fold w1 in Hn1, Hn1p.
  destruct (parseBatchJob_world E w1 f) as [opened Hw2].
  destruct (success (ret (fst (parseBatchJob E w1 f)))) eqn:Hs.
  - specialize (Hok eq_refl). apply (f_equal snd) in Hok. simpl in Hok.
    rewrite Hok.
    destruct (Hnote (EvProgressFinish
                       (fst (batchConvert E w f stylePath forceMode soundProfile
                                          uri progress)))
                    (snd (convertJobs E (val (fst (parseBatchJob E w1 f)))
                            (Z.of_nat (length (val (fst (parseBatchJob E w1 f)))))
                            stylePath forceMode soundProfile uri progress 0%Z []
                            (snd (parseBatchJob E w1 f)))) eq_refl)
      as [n2 [Hn2 [Hn2c [Hn2v Hn2p]]]].
    destruct (convertJobs_registrations E
                (Z.of_nat (length (val (fst (parseBatchJob E w1 f)))))
                stylePath forceMode soundProfile uri progress
                (val (fst (parseBatchJob E w1 f))) 0%Z []
                (snd (parseBatchJob E w1 f)))
      as [added [ps [Hev [Hf [Hc Hv]]]]].
    exists (n1 ++ [EvFileRead f opened] ++ added ++ n2), ps.
    split.
    { rewrite Hn2, Hev, Hw2. simpl events. rewrite Hn1, <- !app_assoc.
      reflexivity. }
    split.
    { rewrite !filter_app, Hn1c, Hn2c, Hf. simpl. now rewrite app_nil_r. }
    split.
    { rewrite Hn2p, Hc, Hw2. simpl. now rewrite Hn1p. }
    intros Hps. rewrite !filter_app, Hn1v, Hn2v, (Hv Hps). reflexivity.
  - specialize (Hfail eq_refl). apply (f_equal snd) in Hfail. simpl in Hfail.
    rewrite Hfail.
    destruct (Hnote (EvProgressFinish (ret (fst (parseBatchJob E w1 f))))
                    (snd (parseBatchJob E w1 f)) eq_refl)
      as [n2 [Hn2 [Hn2c [Hn2v Hn2p]]]].
    exists (n1 ++ [EvFileRead f opened] ++ n2), [].
    split.
    { rewrite Hn2, Hw2. simpl events. rewrite Hn1, <- !app_assoc. reflexivity. }
    split.
    { rewrite !filter_app, Hn1c, Hn2c. reflexivity. }
    split.
    { rewrite Hn2p, Hw2. simpl. exact Hn1p. }
    intros _. rewrite !filter_app, Hn1v, Hn2v. reflexivity.
Qed.

(** ** The course of a batch *)

Lemma fileConvert_after_log (E : Env) (w : World) (i o stylePath : path_t)
    (forceMode : bool) (soundProfile : string) (uri : UriQuery)
    (t : option TransposeOptions) :
  exists rest,
    events (snd (fileConvert E w i o stylePath forceMode soundProfile uri t)) =
      events w ++ EvLogInfo i o :: rest /\
    filter milestone rest = [].
Proof.
  assert (Hp : forall evs, forallb preparationEvent evs = true ->
                           filter milestone evs = []).
  { intros evs. apply filter_none. intros e; now destruct e. }
  assert (Hc : forall evs, forallb conversionEvent evs = true ->
                           filter milestone evs = []).
  { intros evs. apply filter_none. intros e; now destruct e. }
  destruct (fileConvert_shape E w i o stylePath forceMode soundProfile uri t)
    as [prep [Hprep [[Hev _] | [p [writer [w0 [rl [Hev0 [_ [_ Heq]]]]]]]]]].
  - exists prep. split; [exact Hev|now apply Hp].
  - rewrite Heq.
    destruct (convertAsCurrent_shape E w0 writer p o uri) as [conv [Hev [Hconv _]]].
    exists (prep ++ EvSetCurrentProject (Some p) :: conv ++ [EvSetCurrentProject None]).
    split.
    + rewrite Hev, Hev0, <- app_assoc. reflexivity.
    + rewrite filter_app. simpl. rewrite filter_app. simpl.
      now rewrite (Hp _ Hprep), (Hc _ Hconv).
Qed.

Section Segments.

Variable E : Env.
Variables (total : Z) (stylePath : path_t) (forceMode : bool)
          (soundProfile : string) (uri : UriQuery).

Lemma convertJobs_segments_on (jobs : list Job) (c : nat)
    (errors : list string) (w : World) :
  exists rests,
    length rests = length jobs /\
    Forall (fun rest => filter milestone rest = []) rests /\
    events (snd (convertJobs E jobs total stylePath forceMode soundProfile uri
                             true (Z.of_nat c) errors w)) =
      events w
      ++ flat_map (jobSegment true total)
                  (combine (combine (seq (S c) (length jobs)) jobs) rests).
Proof.
  revert c errors w. induction jobs as [|job jobs IH]; intros c errors w.
  - exists []. simpl. rewrite app_nil_r. now repeat split.
  - simpl convertJobs.
    replace (Z.of_nat c + 1)%Z with (Z.of_nat (S c)) by lia.
    set (w1 := emit (EvProgress (Z.of_nat (S c)) total (in_ job)) w).
    destruct (fileConvert_after_log E w1 (in_ job) (out job) stylePath forceMode
                soundProfile uri (transposeOptions job)) as [rest [Hev Hrest]].
    destruct (fileConvert E w1 (in_ job) (out job) stylePath forceMode
                soundProfile uri (transposeOptions job)) as [r w2].
    simpl snd in Hev.
    match goal with
    | |- context [convertJobs E jobs total stylePath forceMode soundProfile uri
                              true (Z.of_nat (S c)) ?e w2] =>
        destruct (IH (S c) e w2) as [rests [Hlen [Hall Hev2]]]
    end.
    exists (rest :: rests).
    split; [simpl; now rewrite Hlen|].
    split; [now constructor|].
    rewrite Hev2, Hev. subst w1. simpl events.
    simpl length. simpl seq. simpl combine. simpl flat_map.
    unfold jobSegment at 2. simpl. unfold progressNotice. simpl.
    rewrite <- !app_assoc. reflexivity.
Qed.

Lemma convertJobs_segments_off (jobs : list Job) (c : nat) (current : Z)
    (errors : list string) (w : World) :
  exists rests,
    length rests = length jobs /\
    Forall (fun rest => filter milestone rest = []) rests /\
    events (snd (convertJobs E jobs total stylePath forceMode soundProfile uri
                             false current errors w)) =
      events w
      ++ flat_map (jobSegment false total)
                  (combine (combine (seq (S c) (length jobs)) jobs) rests).
Proof.
  revert c current errors w. induction jobs as [|job jobs IH];
    intros c current errors w.
  - exists []. simpl. rewrite app_nil_r. now repeat split.
  - simpl convertJobs. unfold notify.
    destruct (fileConvert_after_log E w (in_ job) (out job) stylePath forceMode
                soundProfile uri (transposeOptions job)) as [rest [Hev Hrest]].
    destruct (fileConvert E w (in_ job) (out job) stylePath forceMode
                soundProfile uri (transposeOptions job)) as [r w2].
    simpl snd in Hev.
    match goal with
    | |- context [convertJobs E jobs total stylePath forceMode soundProfile uri
                              false current ?e w2] =>
        destruct (IH (S c) current e w2) as [rests [Hlen [Hall Hev2]]]
    end.
    exists (rest :: rests).
    split; [simpl; now rewrite Hlen|].
    split; [now constructor|].
    rewrite Hev2, Hev.
    simpl length. simpl seq. simpl combine. simpl flat_map.
    unfold jobSegment at 2. simpl.
    rewrite <- !app_assoc. reflexivity.
Qed.

End Segments.

(** X13. The events of [batchConvert] are, in this order: the start told
    to the progress sink, when one is passed; the reading of the batch file;
    then for each job, in the order of the jobs, the notice to the sink with
    the position of the job counted from one, the number of jobs and the
    job's input path, followed at once by the log line that opens the job's
    conversion and by what that conversion does, which tells the sink
    nothing and starts no other conversion; and at the end, once, the result
    that [batchConvert] returns, told to the sink.  A batch file that does
    not parse gives no job.  Without a sink the notices are left out and
    nothing else changes. *)
Theorem batchConvert_progress_protocol
    (E : Env) (w : World) (f stylePath : path_t) (forceMode : bool)
    (soundProfile : string) (uri : UriQuery) (progress : bool) :
  let rv := fst (parseBatchJob E (notify progress EvProgressStart w) f) in
  let jobs := if success (ret rv) then val rv else [] in
  let total := Z.of_nat (length jobs) in
  let result := batchConvert E w f stylePath forceMode soundProfile uri progress in
  exists opened rests,
    length rests = length jobs /\
    Forall (fun rest => filter milestone rest = []) rests /\
    events (snd result) =
      events w
      ++ (if progress then [EvProgressStart] else [])
      ++ [EvFileRead f opened]
      ++ flat_map (jobSegment progress total)
                  (combine (combine (seq 1 (length jobs)) jobs) rests)
      ++ (if progress then [EvProgressFinish (fst result)] else []).
Proof.
  intros rv jobs total result. subst rv jobs total result.
  destruct (batchConvert_unfold E w f stylePath forceMode soundProfile uri progress)
    as [Hfail Hok].
  set (w1 := notify progress EvProgressStart w) in *.
  destruct (parseBatchJob_world E w1 f) as [opened Hw2].
  exists opened.
  destruct (success (ret (fst (parseBatchJob E w1 f)))) eqn:Hs.
  - specialize (Hok eq_refl). apply (f_equal snd) in Hok. simpl in Hok.
    rewrite Hok. rewrite Hw2 in *. subst w1.
    destruct progress; unfold notify in *.
    + destruct (convertJobs_segments_on E
                  (Z.of_nat (length (val (fst (parseBatchJob E
                                                 (emit EvProgressStart w) f)))))
                  stylePath forceMode soundProfile uri
                  (val (fst (parseBatchJob E (emit EvProgressStart w) f))) 0 []
                  (emit (EvFileRead f opened) (emit EvProgressStart w)))
        as [rests [Hlen [Hall Hev]]].
      exists rests. split; [exact Hlen|]. split; [exact Hall|].
      simpl events. simpl Z.of_nat in Hev. rewrite Hev. simpl events.
      rewrite <- !app_assoc. reflexivity.
    + destruct (convertJobs_segments_off E
                  (Z.of_nat (length (val (fst (parseBatchJob E w f)))))
                  stylePath forceMode soundProfile uri
                  (val (fst (parseBatchJob E w f))) 0 0%Z []
                  (emit (EvFileRead f opened) w))
        as [rests [Hlen [Hall Hev]]].
      exists rests. split; [exact Hlen|]. split; [exact Hall|].
      rewrite Hev. simpl events. rewrite app_nil_r, <- !app_assoc. reflexivity.
  - specialize (Hfail eq_refl).
    assert (Hfst : fst (batchConvert E w f stylePath forceMode soundProfile uri
                                     progress) =
                   ret (fst (parseBatchJob E w1 f))).
    { now rewrite Hfail. }
    apply (f_equal snd) in Hfail. simpl in Hfail.
    exists []. split; [reflexivity|]. split; [constructor|].
    rewrite Hfail, Hfst, Hw2. subst w1.
    destruct progress; unfold notify; simpl; rewrite <- ?app_assoc;
      reflexivity.
Qed.

(** ** The failures of a batch *)



